(** * Fantasy_X1: retrieval engine, live-match feed and fantasy-XI selection

    A shallow embedding of [src/utils/retriever.py], [src/utils/live_data.py]
    and [select_fantasy_xi] of [src/streamlit_app.py], followed by the
    properties of the specification that were checked against it.

    Layout: the Python run-time model ([Python]), then one module per source
    file ([Faiss] for the external index, [Retriever], [LiveData], [App]),
    then the lemmas and theorems. *)

From Stdlib Require Import ZArith List String Ascii Bool Lia.
From Stdlib Require Import Sorted Permutation DecimalString.
Import ListNotations.

Local Open Scope Z_scope.

(* ===================================================================== *)
(** * The Python run-time model *)
(* ===================================================================== *)

Module Python.

(** Values produced by [json.load] / [response.json()].  A decoded object is
    a dict in insertion order with pairwise distinct keys, so the first
    binding of a key in [JObj] is the only one.  Numbers are the integers
    (run, wicket and offset counts); JSON numbers with a fraction are outside
    the model.  A [str] is a [string] whose characters are the code points
    below 256. *)
#[warnings="-register-all"]
Inductive json : Type :=
| JNull
| JBool (b : bool)
| JInt (z : Z)
| JStr (s : string)
| JArr (items : list json)
| JObj (fields : list (string * json)).

(** The exceptions the modelled code can meet. *)
Inductive exn : Type :=
| TypeError
| AttributeError
| IndexError
| KeyError
| AssertionError
| ValueError (msg : string)
| JSONDecodeError
| OSError
| HTTPError (status_code : Z) (reason text : string)
| RequestException.

Inductive result (A : Type) : Type :=
| Ok (a : A)
| Raise (e : exn).
Arguments Ok {A} a.
Arguments Raise {A} e.

(** What a run leaves behind besides its value: console output and the calls
    made to the external services. *)
Inductive event : Type :=
| PrintLoadError (path : string)            (* retriever.py:64 *)
| PrintApiError (reason : json)             (* live_data.py:18 *)
| PrintHTTPError (status_code : Z) (reason : string)  (* live_data.py:36 *)
| PrintResponseText (text : string)         (* live_data.py:37 *)
| PrintFetchError (e : exn)                 (* live_data.py:39 *)
| ModelEncode (texts : list string)         (* SentenceTransformer.encode *)
| IndexAdd (n : nat)                        (* faiss index.add *)
| IndexSearch (k : Z)                       (* faiss index.search *)
| HttpGet (url : string).                   (* requests.get *)

(** ** Computations: mutable state [S], an event log, and exceptions.
    The state and the log survive a raise, as in Python. *)

Record outcome (S A : Type) : Type := Outcome {
  value : result A;
  state : S;
  log : list event
}.
Arguments Outcome {S A} value state log.
Arguments value {S A} o.
Arguments state {S A} o.
Arguments log {S A} o.

Definition Py (S A : Type) : Type := S -> list event -> outcome S A.

Definition ret {S A} (a : A) : Py S A :=
  fun s l => Outcome (Ok a) s l.

Definition raise {S A} (e : exn) : Py S A :=
  fun s l => Outcome (Raise e) s l.

Definition bind {S A B} (c : Py S A) (k : A -> Py S B) : Py S B :=
  fun s l =>
    match c s l with
    | Outcome (Ok a) s' l' => k a s' l'
    | Outcome (Raise e) s' l' => Outcome (Raise e) s' l'
    end.

Definition lift {S A} (r : result A) : Py S A :=
  fun s l => Outcome r s l.

Definition get {S} : Py S S :=
  fun s l => Outcome (Ok s) s l.

Definition put {S} (s' : S) : Py S unit :=
  fun _ l => Outcome (Ok tt) s' l.

Definition emit {S} (e : event) : Py S unit :=
  fun s l => Outcome (Ok tt) s (l ++ [e]).

(** [try: body except Exception as e: handler e] *)
Definition try_except {S A} (body : Py S A) (handler : exn -> Py S A) : Py S A :=
  fun s l =>
    match body s l with
    | Outcome (Ok a) s' l' => Outcome (Ok a) s' l'
    | Outcome (Raise e) s' l' => handler e s' l'
    end.

Declare Scope py_scope.
Delimit Scope py_scope with py.
Notation "x <- c ;; k" := (bind c (fun x => k))
  (at level 61, c at next level, right associativity) : py_scope.
Notation "c ;; k" := (bind c (fun _ => k))
  (at level 61, right associativity) : py_scope.

Local Open Scope py_scope.

(** [for x in xs: body x]; a [continue] is a body that returns early. *)
Fixpoint for_each {S X} (xs : list X) (body : X -> Py S unit) : Py S unit :=
  match xs with
  | [] => ret tt
  | x :: rest => body x ;; for_each rest body
  end.

(** The same sequencing for code that touches neither state nor log. *)
Definition rbind {A B} (r : result A) (k : A -> result B) : result B :=
  match r with
  | Ok a => k a
  | Raise e => Raise e
  end.

(** ** Built-in operations on decoded JSON values *)

(** [bool(v)] *)
Definition truthy (v : json) : bool :=
  match v with
  | JNull => false
  | JBool b => b
  | JInt z => negb (z =? 0)%Z
  | JStr s => negb (s =? "")%string
  | JArr items => match items with [] => false | _ => true end
  | JObj fields => match fields with [] => false | _ => true end
  end.

Fixpoint assoc (k : string) (fields : list (string * json)) : option json :=
  match fields with
  | [] => None
  | (k', v) :: rest => if (k =? k')%string then Some v else assoc k rest
  end.

(** [v.get(k, default)]: only dicts have [get]. *)
Definition py_get (v : json) (k : string) (default : json) : result json :=
  match v with
  | JObj fields =>
      match assoc k fields with
      | Some x => Ok x
      | None => Ok default
      end
  | _ => Raise AttributeError
  end.

Fixpoint chars (s : string) : list json :=
  match s with
  | EmptyString => []
  | String c s' => JStr (String c EmptyString) :: chars s'
  end.

(** [iter(v)]: a list yields its items, a dict its keys, a string its
    characters; nothing else is iterable. *)
Definition py_iter (v : json) : result (list json) :=
  match v with
  | JArr items => Ok items
  | JObj fields => Ok (map (fun kv => JStr (fst kv)) fields)
  | JStr s => Ok (chars s)
  | _ => Raise TypeError
  end.

(** [len(v)] *)
Definition py_len (v : json) : result Z :=
  match v with
  | JArr items => Ok (Z.of_nat (List.length items))
  | JObj fields => Ok (Z.of_nat (List.length fields))
  | JStr s => Ok (Z.of_nat (String.length s))
  | _ => Raise TypeError
  end.

(** [xs[i]] on a Python list: a negative [i] counts from the end, and an
    index outside [-len, len) raises [IndexError]. *)
Definition list_getitem {A} (xs : list A) (i : Z) : result A :=
  let n := Z.of_nat (List.length xs) in
  let j := if i <? 0 then n + i else i in
  if (j <? 0) || (n <=? j) then Raise IndexError
  else match nth_error xs (Z.to_nat j) with
       | Some x => Ok x
       | None => Raise IndexError
       end.

(** [v[i]] for an integer [i] on a decoded value. *)
Definition py_getitem (v : json) (i : Z) : result json :=
  match v with
  | JArr items => list_getitem items i
  | JStr s => list_getitem (chars s) i
  | JObj _ => Raise KeyError          (* keys of a decoded dict are strings *)
  | _ => Raise TypeError
  end.

(** [str.isspace] on a single character, for code points below 256. *)
Definition isspace (c : ascii) : bool :=
  let n := nat_of_ascii c in
  ((9 <=? n) && (n <=? 13) || (28 <=? n) && (n <=? 32)
   || (n =? 133) || (n =? 160))%nat.

Fixpoint lstrip (s : string) : string :=
  match s with
  | EmptyString => EmptyString
  | String c s' => if isspace c then lstrip s' else s
  end.

Fixpoint rstrip (s : string) : string :=
  match s with
  | EmptyString => EmptyString
  | String c s' =>
      match rstrip s' with
      | EmptyString => if isspace c then EmptyString else String c EmptyString
      | t => String c t
      end
  end.

(** [s.strip()] *)
Definition strip (s : string) : string := rstrip (lstrip s).

(** [v.strip()]: only strings have [strip]. *)
Definition py_strip (v : json) : result string :=
  match v with
  | JStr s => Ok (strip s)
  | _ => Raise AttributeError
  end.

(** [v == s] for a string literal [s]. *)
Definition eq_str (v : json) (s : string) : bool :=
  match v with
  | JStr t => (t =? s)%string
  | _ => false
  end.

(** [acc + v] for an [int] accumulator: [bool] is a subclass of [int], every
    other decoded value is a [TypeError]. *)
Definition int_add (acc : Z) (v : json) : result Z :=
  match v with
  | JInt z => Ok (acc + z)
  | JBool b => Ok (acc + (if b then 1 else 0))
  | _ => Raise TypeError
  end.

(** Hashing for dict keys: [True == 1] and [hash(True) == hash(1)], lists and
    dicts are unhashable. *)
Inductive hkey : Type :=
| KNone
| KInt (z : Z)
| KStr (s : string).

Definition hash_key (v : json) : result hkey :=
  match v with
  | JNull => Ok KNone
  | JBool b => Ok (KInt (if b then 1 else 0))
  | JInt z => Ok (KInt z)
  | JStr s => Ok (KStr s)
  | JArr _ | JObj _ => Raise TypeError
  end.

Definition hkey_eqb (a b : hkey) : bool :=
  match a, b with
  | KNone, KNone => true
  | KInt x, KInt y => (x =? y)%Z
  | KStr s, KStr t => (s =? t)%string
  | _, _ => false
  end.

(** [str(v)] as an f-string field prints it; [repr_container] stands for
    Python's [repr] of a list or dict. *)
Definition py_str (repr_container : json -> string) (v : json) : string :=
  match v with
  | JNull => "None"
  | JBool true => "True"
  | JBool false => "False"
  | JInt z => NilZero.string_of_int (Z.to_int z)
  | JStr s => s
  | JArr _ | JObj _ => repr_container v
  end.

End Python.

Import Python.
Local Open Scope py_scope.

(** What the code takes from outside, as it sees it: the sentence-embedding
    model (one fixed-dimension [float32] vector per text), the squared
    Euclidean distance with its order, used by the index, and Python's
    [repr] of a list or dict (for an f-string field that holds one). *)
Class Backend : Type := {
  Vec : Type;
  embed : string -> Vec;
  Dist : Type;
  l2 : Vec -> Vec -> Dist;
  dist_ltb : Dist -> Dist -> bool;
  repr_container : json -> string
}.

Definition nl : string := String (ascii_of_nat 10) EmptyString.

(* ===================================================================== *)
(** * faiss.IndexFlatL2, the exact-search index used by the retriever *)
(* ===================================================================== *)

Module Faiss.
Section Flat.
Context {B : Backend}.

(** The stored vectors, in insertion order; label [i] is position [i]. *)
Record IndexFlatL2 : Type := { xb : list Vec }.

Definition new : IndexFlatL2 := {| xb := [] |}.

Definition add (idx : IndexFlatL2) (vs : list Vec) : IndexFlatL2 :=
  {| xb := xb idx ++ vs |}.

Definition ntotal (idx : IndexFlatL2) : Z := Z.of_nat (List.length (xb idx)).

(** Candidates are kept by ascending distance; on equal distance the lower
    label stays first. *)
Fixpoint insert_ranked (x : Dist * Z) (l : list (Dist * Z)) : list (Dist * Z) :=
  match l with
  | [] => [x]
  | y :: l' =>
      if dist_ltb (fst x) (fst y) then x :: l else y :: insert_ranked x l'
  end.

Fixpoint rank_from (q : Vec) (i : Z) (vs : list Vec) (acc : list (Dist * Z))
  : list (Dist * Z) :=
  match vs with
  | [] => acc
  | v :: vs' => rank_from q (i + 1) vs' (insert_ranked (l2 q v, i) acc)
  end.

(** One row of [search]: exactly [k] slots; the slots that have no neighbour
    left carry the label [-1] (and no distance). *)
Definition search_row (idx : IndexFlatL2) (k : Z) (q : Vec)
  : list (option Dist) * list Z :=
  let best := firstn (Z.to_nat k) (rank_from q 0 (xb idx) []) in
  let missing := (Z.to_nat k - List.length best)%nat in
  (map (fun c => Some (fst c)) best ++ repeat None missing,
   map snd best ++ repeat (-1) missing).

(** [index.search(x, k)] for a batch [x] of queries: the Python wrapper
    asserts [k > 0], then returns the distance rows and the label rows, one
    row of [k] slots per query. *)
Definition search (idx : IndexFlatL2) (x : list Vec) (k : Z)
  : result (list (list (option Dist)) * list (list Z)) :=
  if k <=? 0 then Raise AssertionError
  else let rows := map (search_row idx k) x in
       Ok (map fst rows, map snd rows).

End Flat.
End Faiss.

(* ===================================================================== *)
(** * src/utils/retriever.py *)
(* ===================================================================== *)

Module Retriever.
Section Defs.
Context {B : Backend}.

(** The attributes of a [Retriever] object. *)
Record Retriever : Type := {
  documents : list string;
  player_stats : json;
  match_conditions : json;
  faqs : json;
  doc_embeddings : list Vec;
  index : Faiss.IndexFlatL2
}.

(** The object [__init__] receives: no attribute has been assigned yet (the
    code never reads one before assigning it). *)
Definition fresh : Retriever :=
  {| documents := []; player_stats := JNull; match_conditions := JNull;
     faqs := JNull; doc_embeddings := []; index := Faiss.new |}.

(** Attribute assignment, [self.<attr> = v]. *)
Definition with_documents (self : Retriever) (v : list string) : Retriever :=
  {| documents := v; player_stats := player_stats self;
     match_conditions := match_conditions self; faqs := faqs self;
     doc_embeddings := doc_embeddings self; index := index self |}.

Definition with_player_stats (self : Retriever) (v : json) : Retriever :=
  {| documents := documents self; player_stats := v;
     match_conditions := match_conditions self; faqs := faqs self;
     doc_embeddings := doc_embeddings self; index := index self |}.

Definition with_match_conditions (self : Retriever) (v : json) : Retriever :=
  {| documents := documents self; player_stats := player_stats self;
     match_conditions := v; faqs := faqs self;
     doc_embeddings := doc_embeddings self; index := index self |}.

Definition with_faqs (self : Retriever) (v : json) : Retriever :=
  {| documents := documents self; player_stats := player_stats self;
     match_conditions := match_conditions self; faqs := v;
     doc_embeddings := doc_embeddings self; index := index self |}.

Definition with_doc_embeddings (self : Retriever) (v : list Vec) : Retriever :=
  {| documents := documents self; player_stats := player_stats self;
     match_conditions := match_conditions self; faqs := faqs self;
     doc_embeddings := v; index := index self |}.

Definition with_index (self : Retriever) (v : Faiss.IndexFlatL2) : Retriever :=
  {| documents := documents self; player_stats := player_stats self;
     match_conditions := match_conditions self; faqs := faqs self;
     doc_embeddings := doc_embeddings self; index := v |}.

Definition set_documents (v : list string) : Py Retriever unit :=
  self <- get ;; put (with_documents self v).

Definition set_player_stats (v : json) : Py Retriever unit :=
  self <- get ;; put (with_player_stats self v).

Definition set_match_conditions (v : json) : Py Retriever unit :=
  self <- get ;; put (with_match_conditions self v).

Definition set_faqs (v : json) : Py Retriever unit :=
  self <- get ;; put (with_faqs self v).

Definition set_doc_embeddings (v : list Vec) : Py Retriever unit :=
  self <- get ;; put (with_doc_embeddings self v).

Definition set_index (v : Faiss.IndexFlatL2) : Py Retriever unit :=
  self <- get ;; put (with_index self v).

(** [self.documents.append(text)] *)
Definition documents_append (text : string) : Py Retriever unit :=
  self <- get ;;
  set_documents (documents self ++ [text]).

(** [self.model.encode(texts, convert_to_tensor=False)]: one vector per text,
    in the order of the texts. *)
Definition model_encode (texts : list string) : Py Retriever (list Vec) :=
  emit (ModelEncode texts) ;;
  ret (map embed texts).

Definition fmt (v : json) : string := py_str repr_container v.

(** retriever.py:30-34 *)
Definition player_text (player : json) : result string :=
  rbind (py_get player "player" (JStr "Unknown player")) (fun p =>
  rbind (py_get player "role" (JStr "Unknown role")) (fun r =>
  rbind (py_get player "form_last_5_matches" (JStr "N/A")) (fun f =>
  rbind (py_get player "pitch_performance" (JStr "N/A")) (fun pp =>
  Ok (fmt p ++ " is a " ++ fmt r ++ "." ++ nl
      ++ "Recent Form: " ++ fmt f ++ "." ++ nl
      ++ "Pitch Performance: " ++ fmt pp ++ ".")%string)))).

(** retriever.py:40-45 *)
Definition cond_text (cond : json) : result string :=
  rbind (py_get cond "venue" (JStr "Unknown")) (fun v =>
  rbind (py_get cond "pitch" (JStr "Unknown")) (fun p =>
  rbind (py_get cond "weather" (JStr "Unknown")) (fun w =>
  rbind (py_get cond "opposition" (JStr "Unknown")) (fun o =>
  Ok ("Venue: " ++ fmt v ++ ". "
      ++ "Pitch Type: " ++ fmt p ++ ". "
      ++ "Weather Forecast: " ++ fmt w ++ ". "
      ++ "Opponent: " ++ fmt o ++ ".")%string)))).

(** The body of the FAQ loop, retriever.py:50-53. *)
Definition faq_step (faq : json) : Py Retriever unit :=
  q <- lift (py_get faq "question" (JStr "")) ;;
  question <- lift (py_strip q) ;;
  a <- lift (py_get faq "answer" (JStr "")) ;;
  answer <- lift (py_strip a) ;;
  if negb (question =? "")%string && negb (answer =? "")%string
  then documents_append ("Q: " ++ question ++ nl ++ "A: " ++ answer)%string
  else ret tt.

(** The body of the player loop, retriever.py:30-35. *)
Definition player_step (player : json) : Py Retriever unit :=
  text <- lift (player_text player) ;;
  documents_append text.

(** [_load_json]: [fs path] is what [open] followed by [json.load] gives. *)
Definition _load_json (fs : string -> result json) (path : string)
  : Py Retriever json :=
  try_except (lift (fs path))
    (fun e => emit (PrintLoadError path) ;; ret (JArr [])).

Definition _build_index : Py Retriever unit :=
  self <- get ;;
  match documents self with
  | [] => raise (ValueError "No documents found for retrieval.")
  | _ :: _ =>
      embs <- model_encode (documents self) ;;
      set_doc_embeddings embs ;;
      set_index Faiss.new ;;
      self <- get ;;
      emit (IndexAdd (List.length (doc_embeddings self))) ;;
      set_index (Faiss.add (index self) (doc_embeddings self))
  end.

(** retriever.py:23-26, "Load data" *)
Definition load_data (fs : string -> result json)
    (player_stats_path match_conditions_path : string)
    (faqs_path : option string) : Py Retriever unit :=
  ps <- _load_json fs player_stats_path ;;
  set_player_stats ps ;;
  mc <- _load_json fs match_conditions_path ;;
  set_match_conditions mc ;;
  fq <- match faqs_path with
        | Some p => if (p =? "")%string then ret (JArr []) else _load_json fs p
        | None => ret (JArr [])
        end ;;
  set_faqs fq.

(** retriever.py:28-35, "Process player stats" *)
Definition process_player_stats : Py Retriever unit :=
  self <- get ;;
  players <- lift (py_iter (player_stats self)) ;;
  for_each players player_step.

(** retriever.py:37-46, "Process match conditions" *)
Definition process_match_conditions : Py Retriever unit :=
  self <- get ;;
  if truthy (match_conditions self)
  then
    let cond := match_conditions self in
    cond_text <- lift (cond_text cond) ;;
    documents_append cond_text
  else ret tt.

(** retriever.py:48-53, "Process FAQs" *)
Definition process_faqs : Py Retriever unit :=
  self <- get ;;
  records <- lift (py_iter (faqs self)) ;;
  for_each records faq_step.

Definition __init__ (fs : string -> result json)
    (player_stats_path match_conditions_path : string)
    (faqs_path : option string) : Py Retriever unit :=
  set_documents [] ;;
  (* self.model = SentenceTransformer(embed_model_name): the [Backend] *)
  load_data fs player_stats_path match_conditions_path faqs_path ;;
  process_player_stats ;;
  process_match_conditions ;;
  process_faqs ;;
  _build_index.

(** [Retriever(...)]: the instance exists only if [__init__] returns. *)
Definition construct (fs : string -> result json)
    (player_stats_path match_conditions_path : string)
    (faqs_path : option string) : result Retriever * list event :=
  let o := __init__ fs player_stats_path match_conditions_path faqs_path
             fresh [] in
  (match value o with Ok _ => Ok (state o) | Raise e => Raise e end, log o).

(** The comprehension of retriever.py:82:
    [[self.documents[i] for i in indices[0] if i < len(self.documents)]] *)
Fixpoint select_documents (docs : list string) (row : list Z)
  : result (list string) :=
  match row with
  | [] => Ok []
  | i :: rest =>
      if i <? Z.of_nat (List.length docs)
      then rbind (list_getitem docs i) (fun d =>
           rbind (select_documents docs rest) (fun ds => Ok (d :: ds)))
      else select_documents docs rest
  end.

Definition retrieve (query : string) (top_k : Z) : Py Retriever (list string) :=
  if (query =? "")%string then ret []
  else
    q_emb <- model_encode [query] ;;
    self <- get ;;
    emit (IndexSearch top_k) ;;
    found <- lift (Faiss.search (index self) q_emb top_k) ;;
    let indices := snd found in
    row <- lift (list_getitem indices 0) ;;
    self <- get ;;
    lift (select_documents (documents self) row).

End Defs.
End Retriever.

(* ===================================================================== *)
(** * src/utils/live_data.py *)
(* ===================================================================== *)

Module LiveData.

(** What [requests.get] hands back when it returns: [body] is the outcome of
    [response.json()]. *)
Record response : Type := {
  status_code : Z;
  reason : string;
  text : string;
  body : result json
}.

(** [response.raise_for_status()]: a 4xx or 5xx status raises [HTTPError]
    carrying the response. *)
Definition raise_for_status (r : response) : result unit :=
  if (400 <=? status_code r) && (status_code r <? 600)
  then Raise (HTTPError (status_code r) (reason r) (text r))
  else Ok tt.

(** The dict built for one match, live_data.py:23-31. *)
Record match_info : Type := {
  team1 : json;
  team2 : json;
  venue : json;
  status : json;
  start_time : json;
  match_id : json;
  score : json
}.

Definition NA : json := JStr "N/A".

Definition match_info_of (m : json) : result match_info :=
  rbind (py_get m "teamInfo" (JArr [JObj []])) (fun ti =>
  rbind (py_getitem ti 0) (fun first =>
  rbind (py_get first "name" NA) (fun t1 =>
  rbind (py_get m "teamInfo" (JArr [])) (fun ti' =>
  rbind (py_len ti') (fun n =>
  rbind (if 1 <? n
         then rbind (py_get m "teamInfo" (JArr [JObj []])) (fun ti'' =>
              rbind (py_getitem ti'' 1) (fun second =>
              py_get second "name" NA))
         else Ok NA) (fun t2 =>
  rbind (py_get m "venue" NA) (fun v =>
  rbind (py_get m "status" NA) (fun st =>
  rbind (py_get m "dateTimeGMT" NA) (fun dt =>
  rbind (py_get m "id" NA) (fun mid =>
  rbind (py_get m "score" (JArr [])) (fun sc =>
  Ok {| team1 := t1; team2 := t2; venue := v; status := st;
        start_time := dt; match_id := mid; score := sc |}))))))))))).

(** [matches.append(match_info)] on the local list. *)
Definition matches_append (mi : match_info) : Py (list match_info) unit :=
  matches <- get ;;
  put (matches ++ [mi]).

Definition url : string := "https://api.cricapi.com/v1/currentMatches".

(** The [try] block, live_data.py:13-33.  [net] answers [requests.get] for
    a URL and its query parameters; the state is the local list [matches]. *)
Definition try_body (net : string -> list (string * json) -> result response)
    (params : list (string * json)) : Py (list match_info) (list match_info) :=
  emit (HttpGet url) ;;
  response <- lift (net url params) ;;
  lift (raise_for_status response) ;;
  data <- lift (body response) ;;
  st <- lift (py_get data "status" JNull) ;;
  if negb (eq_str st "success")
  then
    reason <- lift (py_get data "reason" JNull) ;;
    emit (PrintApiError reason) ;;
    ret []
  else
    put [] ;;
    items <- lift (rbind (py_get data "data" (JArr [])) py_iter) ;;
    for_each items (fun m =>
      mi <- lift (match_info_of m) ;;
      matches_append mi) ;;
    get.

(** The two [except] clauses; both fall through to [return []]. *)
Definition handler (e : exn) : Py (list match_info) (list match_info) :=
  match e with
  | HTTPError code rsn txt =>
      emit (PrintHTTPError code rsn) ;;
      emit (PrintResponseText txt) ;;
      ret []
  | _ =>
      emit (PrintFetchError e) ;;
      ret []
  end.

(** [params = {"apikey": api_key, "offset": 0}] with
    [api_key = os.getenv("CRICKET_API_KEY")]. *)
Definition request_params (getenv : string -> option string)
  : list (string * json) :=
  let api_key := match getenv "CRICKET_API_KEY"%string with
                 | Some k => JStr k
                 | None => JNull
                 end in
  [("apikey"%string, api_key); ("offset"%string, JInt 0)].

Definition get_live_match_data
    (getenv : string -> option string)
    (net : string -> list (string * json) -> result response)
  : Py (list match_info) (list match_info) :=
  try_except (try_body net (request_params getenv)) handler.

(** A call from outside: fresh locals, fresh console. *)
Definition call (getenv : string -> option string)
    (net : string -> list (string * json) -> result response)
  : result (list match_info) :=
  value (get_live_match_data getenv net [] []).

End LiveData.

(* ===================================================================== *)
(** * src/streamlit_app.py: [select_fantasy_xi] *)
(* ===================================================================== *)

Module App.

(** The per-player dict [{"runs": .., "wickets": ..}]. *)
Record tally : Type := { t_runs : Z; t_wickets : Z }.

(** [stats]: a dict in insertion order.  A key is kept as first inserted and
    found again through its hash key. *)
Definition stats_dict : Type := list (json * tally).

Definition key_eqb (a b : json) : bool :=
  match hash_key a, hash_key b with
  | Ok x, Ok y => hkey_eqb x y
  | _, _ => false
  end.

Fixpoint dict_get (stats : stats_dict) (nm : json) : option tally :=
  match stats with
  | [] => None
  | (k, v) :: rest => if key_eqb k nm then Some v else dict_get rest nm
  end.

Fixpoint dict_set (stats : stats_dict) (nm : json) (v : tally) : stats_dict :=
  match stats with
  | [] => [(nm, v)]
  | (k, w) :: rest =>
      if key_eqb k nm then (k, v) :: rest else (k, w) :: dict_set rest nm v
  end.

(** [stats.setdefault(nm, {"runs":0,"wickets":0})] *)
Definition setdefault (nm : json) : Py stats_dict unit :=
  lift (hash_key nm) ;;
  stats <- get ;;
  match dict_get stats nm with
  | Some _ => ret tt
  | None => put (dict_set stats nm {| t_runs := 0; t_wickets := 0 |})
  end.

(** [stats[nm]] *)
Definition getitem (nm : json) : Py stats_dict tally :=
  lift (hash_key nm) ;;
  stats <- get ;;
  match dict_get stats nm with
  | Some v => ret v
  | None => raise KeyError
  end.

(** [stats[nm]["runs"] += v] *)
Definition add_runs (nm v : json) : Py stats_dict unit :=
  t <- getitem nm ;;
  r <- lift (int_add (t_runs t) v) ;;
  stats <- get ;;
  put (dict_set stats nm {| t_runs := r; t_wickets := t_wickets t |}).

(** [stats[nm]["wickets"] += v] *)
Definition add_wickets (nm v : json) : Py stats_dict unit :=
  t <- getitem nm ;;
  w <- lift (int_add (t_wickets t) v) ;;
  stats <- get ;;
  put (dict_set stats nm {| t_runs := t_runs t; t_wickets := w |}).

(** The body of the batting loop, streamlit_app.py:67-70. *)
Definition batting_step (b : json) : Py stats_dict unit :=
  who <- lift (py_get b "batsman" (JObj [])) ;;
  nm <- lift (py_get who "name" JNull) ;;
  if negb (truthy nm) then ret tt
  else
    setdefault nm ;;
    r <- lift (py_get b "r" (JInt 0)) ;;
    add_runs nm r.

(** The body of the bowling loop, streamlit_app.py:72-75. *)
Definition bowling_step (bw : json) : Py stats_dict unit :=
  who <- lift (py_get bw "bowler" (JObj [])) ;;
  nm <- lift (py_get who "name" JNull) ;;
  if negb (truthy nm) then ret tt
  else
    setdefault nm ;;
    w <- lift (py_get bw "w" (JInt 0)) ;;
    add_wickets nm w.

Definition innings_step (inn : json) : Py stats_dict unit :=
  batting <- lift (rbind (py_get inn "batting" (JArr [])) py_iter) ;;
  for_each batting batting_step ;;
  bowling <- lift (rbind (py_get inn "bowling" (JArr [])) py_iter) ;;
  for_each bowling bowling_step.

(** An entry of the returned list; [captain] and [vice_captain] tell whether
    the key was set (to [True]) on the dict. *)
Record player : Type := {
  name : json;
  runs : Z;
  wickets : Z;
  score : Z;
  captain : bool;
  vice_captain : bool
}.

Definition player_of (kv : json * tally) : player :=
  {| name := fst kv; runs := t_runs (snd kv); wickets := t_wickets (snd kv);
     score := t_runs (snd kv) + t_wickets (snd kv) * 20;
     captain := false; vice_captain := false |}.

(** [players.sort(key=score, reverse=True)]: descending, and entries with
    equal scores keep their order. *)
Fixpoint insert_desc (p : player) (l : list player) : list player :=
  match l with
  | [] => [p]
  | q :: l' => if score q <=? score p then p :: l else q :: insert_desc p l'
  end.

Definition sort_desc (l : list player) : list player :=
  fold_right insert_desc [] l.

Definition set_captain (p : player) : player :=
  {| name := name p; runs := runs p; wickets := wickets p; score := score p;
     captain := true; vice_captain := vice_captain p |}.

Definition set_vice_captain (p : player) : player :=
  {| name := name p; runs := runs p; wickets := wickets p; score := score p;
     captain := captain p; vice_captain := true |}.

(** streamlit_app.py:83-86 *)
Definition mark (xi : list player) : list player :=
  match xi with
  | [] => []
  | c :: rest =>
      set_captain c ::
      match rest with
      | [] => []
      | v :: rest' => set_vice_captain v :: rest'
      end
  end.

(** The accumulation loop runs on the local dict [stats]; the rest is pure. *)
Definition accumulate (scorecard : json) : Py stats_dict unit :=
  innings <- lift (rbind (py_get scorecard "scorecard" (JArr [])) py_iter) ;;
  for_each innings innings_step.

Definition select_fantasy_xi (scorecard : json) : result (list player) :=
  let o := accumulate scorecard [] [] in
  match value o with
  | Raise e => Raise e
  | Ok _ =>
      let players := map player_of (state o) in
      let xi := firstn 11 (sort_desc players) in
      Ok (mark xi)
  end.

End App.

(* ===================================================================== *)
(** * Specification-level definitions *)
(* ===================================================================== *)

(** The vocabulary of the specification, stated without state or log so
    that the code above can be compared with it. *)

Module Spec.
Section Corpus.
Context {B : Backend}.

(** All results of [f] over [xs], or the first exception met. *)
Fixpoint traverse {X Y} (f : X -> result Y) (xs : list X) : result (list Y) :=
  match xs with
  | [] => Ok []
  | x :: rest =>
      rbind (f x) (fun y =>
      rbind (traverse f rest) (fun ys => Ok (y :: ys)))
  end.

(** What a source holds once loaded: its content, or the empty list that
    stands for a source that could not be read. *)
Definition loaded (fs : string -> result json) (path : string) : json :=
  match fs path with
  | Ok v => v
  | Raise _ => JArr []
  end.

Definition load_warning (fs : string -> result json) (path : string)
  : list event :=
  match fs path with
  | Ok _ => []
  | Raise _ => [PrintLoadError path]
  end.

(** The FAQ source is optional: no path (or an empty one) is no source. *)
Definition faq_source (fs : string -> result json) (faqs_path : option string)
  : json :=
  match faqs_path with
  | Some p => if (p =? "")%string then JArr [] else loaded fs p
  | None => JArr []
  end.

Definition faq_warning (fs : string -> result json)
    (faqs_path : option string) : list event :=
  match faqs_path with
  | Some p => if (p =? "")%string then [] else load_warning fs p
  | None => []
  end.

(** The text of field [k] of a FAQ record; an absent field reads as the
    empty string, a field that is not text has no reading. *)
Definition faq_field (faq : json) (k : string) : option string :=
  match faq with
  | JObj fields =>
      match assoc k fields with
      | None => Some EmptyString
      | Some (JStr s) => Some s
      | Some _ => None
      end
  | _ => None
  end.

(** Blank: empty or whitespace-only. *)
Definition blank (s : string) : bool := (strip s =? "")%string.

(** The passage of a FAQ with the given (trimmed) question and answer. *)
Definition faq_text (question answer : string) : string :=
  ("Q: " ++ question ++ nl ++ "A: " ++ answer)%string.

(** What a record with question [q] and answer [a] adds to the corpus. *)
Definition faq_contribution (q a : string) : list string :=
  if blank q || blank a then [] else [faq_text (strip q) (strip a)].

(** The passages one FAQ record contributes: none or one. *)
Definition faq_passages (faq : json) : result (list string) :=
  rbind (py_get faq "question" (JStr "")) (fun q =>
  rbind (py_strip q) (fun question =>
  rbind (py_get faq "answer" (JStr "")) (fun a =>
  rbind (py_strip a) (fun answer =>
  Ok (if negb (question =? "")%string && negb (answer =? "")%string
      then [faq_text question answer] else []))))).

(** The passages the match-conditions source contributes: one if a record
    is there, none if the source is empty. *)
Definition cond_passages (mc : json) : result (list string) :=
  if truthy mc
  then rbind (Retriever.cond_text mc) (fun t => Ok [t])
  else Ok [].

(** The corpus in the order of the specification: player passages, then the
    match-conditions passage, then the FAQ passages. *)
Definition corpus (ps mc fq : json) : result (list string) :=
  rbind (rbind (py_iter ps) (traverse Retriever.player_text)) (fun pp =>
  rbind (cond_passages mc) (fun cc =>
  rbind (rbind (py_iter fq) (traverse faq_passages)) (fun ff =>
  Ok (pp ++ cc ++ List.concat ff)))).

(** The object a successful construction leaves behind for corpus [docs]. *)
Definition instance (ps mc fq : json) (docs : list string)
  : Retriever.Retriever :=
  {| Retriever.documents := docs;
     Retriever.player_stats := ps;
     Retriever.match_conditions := mc;
     Retriever.faqs := fq;
     Retriever.doc_embeddings := map embed docs;
     Retriever.index := {| Faiss.xb := map embed docs |} |}.

(** A loop body that only appends the passages [contrib x] to the corpus. *)
Definition appends (step : json -> Py Retriever.Retriever unit)
    (contrib : json -> result (list string)) : Prop :=
  forall x s l,
    step x s l =
    match contrib x with
    | Ok ds =>
        Outcome (Ok tt)
          (Retriever.with_documents s (Retriever.documents s ++ ds)) l
    | Raise e => Outcome (Raise e) s l
    end.

(** The error of an empty corpus, retriever.py:70. *)
Definition no_documents : exn :=
  ValueError "No documents found for retrieval.".

(** Labels a search may return for a corpus of [n] passages. *)
Definition valid_label (n : nat) (i : Z) : Prop := 0 <= i < Z.of_nat n.

End Corpus.

Section Scorecard.

(** Field [k] of a record, [default] when it is absent. *)
Definition field (v : json) (k : string) (default : json) : json :=
  match py_get v k default with
  | Ok x => x
  | Raise _ => default
  end.

Definition items (v : json) : list json :=
  match py_iter v with
  | Ok l => l
  | Raise _ => []
  end.

Definition innings_of (sc : json) : list json :=
  items (field sc "scorecard" (JArr [])).

Definition batting_of (inn : json) : list json :=
  items (field inn "batting" (JArr [])).

Definition bowling_of (inn : json) : list json :=
  items (field inn "bowling" (JArr [])).

(** The name an entry is credited to: [who] is "batsman" or "bowler". *)
Definition entry_name (who : string) (e : json) : json :=
  field (field e who (JObj [])) "name" JNull.

Definition int_value (v : json) : Z :=
  match int_add 0 v with
  | Ok z => z
  | Raise _ => 0
  end.

(** What entry [e] adds to the count [what] of player [nm]. *)
Definition credited (who what : string) (nm e : json) : Z :=
  if App.key_eqb (entry_name who e) nm
  then int_value (field e what (JInt 0))
  else 0.

Definition total (who what : string) (nm : json) (es : list json) : Z :=
  fold_right (fun e acc => credited who what nm e + acc) 0 es.

(** Runs and wickets of a player, accumulated across all innings. *)
Definition total_runs (sc nm : json) : Z :=
  total "batsman" "r" nm (flat_map batting_of (innings_of sc)).

Definition total_wickets (sc nm : json) : Z :=
  total "bowler" "w" nm (flat_map bowling_of (innings_of sc)).

(** A scorecard of the expected shape: records are objects, the lists are
    lists, a name that is present is a scalar, a count is an integer. *)
Definition is_int (v : json) : bool :=
  match v with
  | JInt _ | JBool _ => true
  | _ => false
  end.

Definition hashable (v : json) : bool :=
  match v with
  | JArr _ | JObj _ => false
  | _ => true
  end.

Definition entry_ok (who what : string) (e : json) : bool :=
  match e with
  | JObj _ =>
      match field e who (JObj []) with
      | JObj _ =>
          negb (truthy (entry_name who e))
          || hashable (entry_name who e) && is_int (field e what (JInt 0))
      | _ => false
      end
  | _ => false
  end.

Definition list_ok (ok : json -> bool) (v : json) : bool :=
  match v with
  | JArr es => forallb ok es
  | _ => false
  end.

Definition innings_ok (inn : json) : bool :=
  match inn with
  | JObj _ =>
      list_ok (entry_ok "batsman" "r") (field inn "batting" (JArr []))
      && list_ok (entry_ok "bowler" "w") (field inn "bowling" (JArr []))
  | _ => false
  end.

Definition scorecard_ok (sc : json) : bool :=
  match sc with
  | JObj _ => list_ok innings_ok (field sc "scorecard" (JArr []))
  | _ => false
  end.

(** The tally the dict holds for [nm], zero when [nm] is not a key. *)
Definition tally_of (stats : App.stats_dict) (nm : json) : App.tally :=
  match App.dict_get stats nm with
  | Some t => t
  | None => {| App.t_runs := 0; App.t_wickets := 0 |}
  end.

(** The dict after [setdefault] with the zero tally. *)
Definition ensure (stats : App.stats_dict) (nm : json) : App.stats_dict :=
  match App.dict_get stats nm with
  | Some _ => stats
  | None => App.dict_set stats nm {| App.t_runs := 0; App.t_wickets := 0 |}
  end.

(** No two keys of the dict are equal as Python keys. *)
Fixpoint distinct (stats : App.stats_dict) : Prop :=
  match stats with
  | [] => True
  | (k, _) :: rest =>
      App.key_eqb k k = true /\ App.dict_get rest k = None /\ distinct rest
  end.

(** The loop invariant of the accumulation: the dict holds, for every
    name that counts as present, the totals over the entries seen so far. *)
Definition tallied (stats : App.stats_dict) (bs ws : list json) : Prop :=
  distinct stats /\
  (forall x t, App.dict_get stats x = Some t -> truthy x = true) /\
  (forall x, truthy x = true ->
     App.t_runs (tally_of stats x) = total "batsman" "r" x bs /\
     App.t_wickets (tally_of stats x) = total "bowler" "w" x ws).

(** Descending by score. *)
Definition by_score_desc (p q : App.player) : Prop :=
  App.score q <= App.score p.

End Scorecard.

End Spec.

(* ===================================================================== *)
(** * Concrete inputs *)
(* ===================================================================== *)

Module Example.
Local Open Scope string_scope.

(** A stand-in for the numeric services: a text is embedded as its length,
    distances are squared differences. *)
Definition toy : Backend :=
  {| Vec := Z;
     embed := fun s => Z.of_nat (String.length s);
     Dist := Z;
     l2 := fun a b => (a - b) * (a - b);
     dist_ltb := Z.ltb;
     repr_container := fun _ => "<container>" |}.

Definition player_A : json :=
  JObj [("player", JStr "A"); ("role", JStr "Batsman");
        ("form_last_5_matches", JStr "50,40,0,10,60");
        ("pitch_performance", JStr "Good on flat pitches")].

Definition player_B : json :=
  JObj [("player", JStr "B"); ("role", JStr "Bowler");
        ("form_last_5_matches", JStr "2,1,3,0,4");
        ("pitch_performance", JStr "Swings ball")].

Definition faq_captain : json :=
  JObj [("question", JStr "Who captains?"); ("answer", JStr "Best scorer.")].

Definition faq_blank_answer : json :=
  JObj [("question", JStr "Who bowls?"); ("answer", JStr "   ")].

(** Two players, two FAQ records (one with a blank answer), and a
    match-conditions file that cannot be read. *)
Definition files (path : string) : result json :=
  if path =? "data/player_stats.json" then Ok (JArr [player_A; player_B])
  else if path =? "data/faqs.json"
       then Ok (JArr [faq_captain; faq_blank_answer])
  else Raise JSONDecodeError.

(** A single player record and nothing else. *)
Definition one_file (path : string) : result json :=
  if path =? "data/player_stats.json" then Ok (JArr [player_A])
  else Raise OSError.

(** Three sources that are all present and all empty. *)
Definition empty_files (path : string) : result json :=
  if path =? "data/match_conditions.json" then Ok (JObj []) else Ok (JArr []).

Definition text_A : string :=
  "A is a Batsman." ++ nl ++ "Recent Form: 50,40,0,10,60." ++ nl
  ++ "Pitch Performance: Good on flat pitches.".

Definition text_B : string :=
  "B is a Bowler." ++ nl ++ "Recent Form: 2,1,3,0,4." ++ nl
  ++ "Pitch Performance: Swings ball.".

Definition text_faq : string := "Q: Who captains?" ++ nl ++ "A: Best scorer.".

Definition players_path : string := "data/player_stats.json".
Definition conditions_path : string := "data/match_conditions.json".
Definition faqs_path : option string := Some "data/faqs.json".

(** The retriever built from [one_file]. *)
Definition single : @Retriever.Retriever toy :=
  @Spec.instance toy (JArr [player_A]) (JArr []) (JArr []) [text_A].

Definition single_log : list event :=
  [PrintLoadError conditions_path; PrintLoadError "data/faqs.json";
   ModelEncode [text_A]; IndexAdd 1].

(** The retriever built from [files]. *)
Definition small : @Retriever.Retriever toy :=
  @Spec.instance toy (JArr [player_A; player_B]) (JArr [])
    (JArr [faq_captain; faq_blank_answer]) [text_A; text_B; text_faq].

Definition small_log : list event :=
  [PrintLoadError conditions_path;
   ModelEncode [text_A; text_B; text_faq]; IndexAdd 3].

(** A scorecard of two innings; one batting entry carries no name. *)
Definition bat (n : string) (r : Z) : json :=
  JObj [("batsman", JObj [("name", JStr n)]); ("r", JInt r)].

Definition bowl (n : string) (w : Z) : json :=
  JObj [("bowler", JObj [("name", JStr n)]); ("w", JInt w)].

Definition scorecard : json :=
  JObj [("scorecard", JArr [
    JObj [("batting", JArr [bat "A" 30; bat "B" 10; JObj [("r", JInt 5)]]);
          ("bowling", JArr [bowl "C" 2; bowl "A" 1])];
    JObj [("batting", JArr [bat "C" 7; bat "A" 1]);
          ("bowling", JArr [bowl "B" 1])]])].

(** What [select_fantasy_xi] makes of it. *)
Definition fantasy_xi : list App.player :=
  [{| App.name := JStr "A"; App.runs := 31; App.wickets := 1;
      App.score := 51; App.captain := true; App.vice_captain := false |};
   {| App.name := JStr "C"; App.runs := 7; App.wickets := 2;
      App.score := 47; App.captain := false; App.vice_captain := true |};
   {| App.name := JStr "B"; App.runs := 10; App.wickets := 1;
      App.score := 30; App.captain := false; App.vice_captain := false |}].

(** The network: a server that answers 404, and one that is unreachable. *)
Definition not_found (u : string) (params : list (string * json))
  : result LiveData.response :=
  Ok {| LiveData.status_code := 404; LiveData.reason := "Not Found";
        LiveData.text := "no such route";
        LiveData.body := Raise JSONDecodeError |}.

Definition unreachable (u : string) (params : list (string * json))
  : result LiveData.response :=
  Raise RequestException.

(** A server whose answer is not JSON, and one that reports a failure. *)
Definition garbled (u : string) (params : list (string * json))
  : result LiveData.response :=
  Ok {| LiveData.status_code := 200; LiveData.reason := "OK";
        LiveData.text := "<html>"; LiveData.body := Raise JSONDecodeError |}.

Definition refused (u : string) (params : list (string * json))
  : result LiveData.response :=
  Ok {| LiveData.status_code := 200; LiveData.reason := "OK";
        LiveData.text := "";
        LiveData.body :=
          Ok (JObj [("status", JStr "failure");
                    ("reason", JStr "Invalid API Key")]) |}.

Definition no_env (name : string) : option string := None.

End Example.

(* ===================================================================== *)
(** * More of the Python run-time: string methods *)
(* ===================================================================== *)

Module PyStr.

(** [str.lower] on one character, for code points below 256: the ASCII
    capitals and the Latin-1 capitals (all of U+00C0..U+00DE but the
    multiplication sign) move up by 32. *)
Definition lower_char (c : ascii) : ascii :=
  let n := nat_of_ascii c in
  if ((65 <=? n) && (n <=? 90) || (192 <=? n) && (n <=? 214)
      || (216 <=? n) && (n <=? 222))%nat
  then ascii_of_nat (n + 32)
  else c.

(** [s.lower()] *)
Fixpoint lower (s : string) : string :=
  match s with
  | EmptyString => EmptyString
  | String c s' => String (lower_char c) (lower s')
  end.

(** [v.lower()]: only strings have [lower]. *)
Definition py_lower (v : json) : result string :=
  match v with
  | JStr s => Ok (lower s)
  | _ => Raise AttributeError
  end.

(** [v.startswith(t)]: only strings have [startswith]. *)
Definition py_startswith (v : json) (t : string) : result bool :=
  match v with
  | JStr s => Ok (String.prefix t s)
  | _ => Raise AttributeError
  end.

(** [s in [t1, t2, ...]] for strings. *)
Definition str_in (s : string) (l : list string) : bool :=
  existsb (String.eqb s) l.

(** [v[k]] for a string key [k]: a dict looks the key up, a list or a
    string refuses a string index. *)
Definition py_subscript (v : json) (k : string) : result json :=
  match v with
  | JObj fields =>
      match assoc k fields with
      | Some x => Ok x
      | None => Raise KeyError
      end
  | _ => Raise TypeError
  end.

(** [[x for x in xs if keep x]] where the test itself may raise. *)
Fixpoint comprehension {A} (keep : A -> result bool) (xs : list A)
  : result (list A) :=
  match xs with
  | [] => Ok []
  | x :: rest =>
      rbind (keep x) (fun b =>
      rbind (comprehension keep rest) (fun ys =>
      Ok (if b then x :: ys else ys)))
  end.

End PyStr.

(* ===================================================================== *)
(** * src/utils/live_data.py: [get_scheduled_matches] *)
(* ===================================================================== *)

Module Schedule.
Import PyStr.

(** The test of live_data.py:50; [m.get("status", "")] finds the key, which
    [get_live_match_data] always sets. *)
Definition is_scheduled (m : LiveData.match_info) : result bool :=
  rbind (py_lower (LiveData.status m)) (fun s =>
  Ok (str_in s ["not started"; "scheduled"; "upcoming"]%string)).

Definition get_scheduled_matches
    (getenv : string -> option string)
    (net : string -> list (string * json) -> result LiveData.response)
  : result (list LiveData.match_info) :=
  rbind (LiveData.call getenv net) (fun all_matches =>
  comprehension is_scheduled all_matches).

End Schedule.

(* ===================================================================== *)
(** * src/streamlit_app.py: helpers, scorecard fetch and sidebar lists *)
(* ===================================================================== *)

Module Page.
Import PyStr.

(** [get_todays_matches]; [today] is what [get_today_str()] reads off the
    clock, the UTC date in ISO form. *)
Definition get_todays_matches (today : string)
    (matches : list LiveData.match_info)
  : result (list LiveData.match_info) :=
  comprehension (fun m => py_startswith (LiveData.start_time m) today)
    matches.

(** One line of [format_score], streamlit_app.py:40. *)
Definition score_line (repr : json -> string) (inn : json) : result string :=
  rbind (py_get inn "inning" (JStr "Inning")) (fun i =>
  rbind (py_get inn "r" (JInt 0)) (fun r =>
  rbind (py_get inn "w" (JInt 0)) (fun w =>
  rbind (py_get inn "o" (JInt 0)) (fun o =>
  Ok ("**" ++ py_str repr i ++ "**: " ++ py_str repr r ++ "/"
      ++ py_str repr w ++ " in " ++ py_str repr o ++ " overs")%string)))).

(** [format_score]; the state is the local list [lines]. *)
Definition format_score (repr : json -> string) (score_list : json)
  : Py (list string) string :=
  if negb (truthy score_list) then ret "No score available"%string
  else
    put [] ;;
    innings <- lift (py_iter score_list) ;;
    for_each innings (fun inn =>
      line <- lift (score_line repr inn) ;;
      lines <- get ;;
      put (lines ++ [line])) ;;
    lines <- get ;;
    ret (String.concat nl lines).

(** What [st.error] puts on the page. *)
Inductive notice : Type :=
| ScorecardApiError (reason : json)      (* streamlit_app.py:54 *)
| ScorecardFetchError (e : exn).         (* streamlit_app.py:58 *)

Definition st_error (n : notice) : Py (list notice) unit :=
  page <- get ;;
  put (page ++ [n]).

Definition scorecard_url : string :=
  "https://api.cricapi.com/v1/match_scorecard".

(** [params = {"apikey": api_key, "id": match_id}] *)
Definition scorecard_params (getenv : string -> option string)
    (match_id : string) : list (string * json) :=
  let api_key := match getenv "CRICKET_API_KEY"%string with
                 | Some k => JStr k
                 | None => JNull
                 end in
  [("apikey"%string, api_key); ("id"%string, JStr match_id)].

(** The [try] block of [get_scorecard], streamlit_app.py:50-56; [None] is
    [JNull]. *)
Definition scorecard_body
    (net : string -> list (string * json) -> result LiveData.response)
    (params : list (string * json)) : Py (list notice) json :=
  emit (HttpGet scorecard_url) ;;
  res <- lift (net scorecard_url params) ;;
  lift (LiveData.raise_for_status res) ;;
  data <- lift (LiveData.body res) ;;
  st <- lift (py_get data "status" JNull) ;;
  if negb (eq_str st "success")
  then
    reason <- lift (py_get data "reason" JNull) ;;
    st_error (ScorecardApiError reason) ;;
    ret JNull
  else lift (py_subscript data "data").

(** [get_scorecard]; the state is the page the errors are shown on. *)
Definition get_scorecard
    (getenv : string -> option string)
    (net : string -> list (string * json) -> result LiveData.response)
    (match_id : string) : Py (list notice) json :=
  try_except (scorecard_body net (scorecard_params getenv match_id))
    (fun e => st_error (ScorecardFetchError e) ;; ret JNull).

(** The tests of the two sidebar lists, streamlit_app.py:147 and 160;
    [m["status"]] finds the key. *)
Definition is_upcoming (m : LiveData.match_info) : result bool :=
  rbind (py_lower (LiveData.status m)) (fun s =>
  Ok (str_in s ["scheduled"; "upcoming"; "not started"]%string)).

Definition is_live (m : LiveData.match_info) : result bool :=
  rbind (py_lower (LiveData.status m)) (fun s =>
  Ok (negb (str_in s ["scheduled"; "upcoming"; "not started"]%string))).

Definition live_matches (all_matches : list LiveData.match_info)
  : result (list LiveData.match_info) :=
  comprehension is_live all_matches.

Definition upcoming_matches (all_matches : list LiveData.match_info)
  : result (list LiveData.match_info) :=
  comprehension is_upcoming all_matches.

End Page.

(* ===================================================================== *)
(** * Further specification-level definitions *)
(* ===================================================================== *)

Module More.
Import PyStr.

(** A decoded value that is a string. *)
Definition is_text (v : json) : bool :=
  match v with
  | JStr _ => true
  | _ => false
  end.

(** A decoded value that is an object. *)
Definition is_object (v : json) : bool :=
  match v with
  | JObj _ => true
  | _ => false
  end.


(** A label that is a position of a corpus of [n] passages. *)
Definition in_range (n : nat) (i : Z) : Prop := 0 <= i < Z.of_nat n.

(** A match whose status, lower-cased, is one of the three words that mean
    it has not begun. *)
Definition not_begun (m : LiveData.match_info) : bool :=
  match LiveData.status m with
  | JStr s => str_in (lower s) ["scheduled"; "upcoming"; "not started"]%string
  | _ => false
  end.

(** A match whose start time is a text beginning with [today]. *)
Definition starts_on (today : string) (m : LiveData.match_info) : bool :=
  match LiveData.start_time m with
  | JStr s => String.prefix today s
  | _ => false
  end.

(** [x] is the name of some batting entry of [bs] or bowling entry of
    [ws], as Python compares dict keys. *)
Definition named (bs ws : list json) (x : json) : Prop :=
  (exists e, In e bs /\ App.key_eqb (Spec.entry_name "batsman" e) x = true)
  \/
  (exists e, In e ws /\ App.key_eqb (Spec.entry_name "bowler" e) x = true).

Definition named_in (sc x : json) : Prop :=
  named (flat_map Spec.batting_of (Spec.innings_of sc))
        (flat_map Spec.bowling_of (Spec.innings_of sc)) x.

(** The keys of the dict are the names seen so far that count as present. *)
Definition keyed (stats : App.stats_dict) (bs ws : list json) : Prop :=
  forall x, App.dict_get stats x <> None <->
            truthy x = true /\ named bs ws x.

(** What a successful pass of a loop body does to the dict: nothing for an
    entry without a name, one key set for a named one. *)
Definition step_shape (nm : json) (stats stats' : App.stats_dict) : Prop :=
  (truthy nm = false /\ stats' = stats) \/
  (truthy nm = true /\ Spec.hashable nm = true /\
   exists t, stats' = App.dict_set (Spec.ensure stats nm) nm t).

(** The scorecard request for [mid] is served with [d]: the request is
    answered without an HTTP error status by an object whose status is
    "success" and whose "data" member is [d]. *)
Definition scorecard_served (getenv : string -> option string)
    (net : string -> list (string * json) -> result LiveData.response)
    (mid : string) (d : json) : Prop :=
  exists r fields,
    net Page.scorecard_url (Page.scorecard_params getenv mid) = Ok r /\
    LiveData.raise_for_status r = Ok tt /\
    LiveData.body r = Ok (JObj fields) /\
    assoc "status" fields = Some (JStr "success") /\
    assoc "data" fields = Some d.

(** The fantasy score of a name: runs plus 20 per wicket. *)
Definition points (sc nm : json) : Z :=
  Spec.total_runs sc nm + 20 * Spec.total_wickets sc nm.

End More.

(* ===================================================================== *)
(** * Further concrete inputs *)
(* ===================================================================== *)

Module Cases.
Import Example.
Local Open Scope string_scope.


(** [Example.files] with a different FAQ file. *)
Definition files_other_faqs (path : string) : result json :=
  if path =? "data/faqs.json" then Ok (JArr [faq_blank_answer])
  else files path.

(** The player records wrapped in an object. *)
Definition wrapped_players (path : string) : result json :=
  if path =? "data/player_stats.json"
  then Ok (JObj [("players", JArr [player_A; player_B])])
  else files path.

(** The match conditions given as a list of one record. *)
Definition listed_conditions (path : string) : result json :=
  if path =? "data/match_conditions.json"
  then Ok (JArr [JObj [("venue", JStr "Mumbai")]])
  else files path.

Definition corpus3 : list string := [text_A; text_B; text_faq].

(** Three matches as the API lists them: one in progress, one scheduled
    without a start time, one upcoming with a single team. *)
Definition match_live : json :=
  JObj [("teamInfo", JArr [JObj [("name", JStr "India")];
                           JObj [("name", JStr "Australia")]]);
        ("venue", JStr "Mumbai"); ("status", JStr "India need 20 runs");
        ("dateTimeGMT", JStr "2024-05-01T14:00:00"); ("id", JStr "m1")].

Definition match_scheduled : json :=
  JObj [("teamInfo", JArr [JObj [("name", JStr "England")];
                           JObj [("name", JStr "Pakistan")]]);
        ("status", JStr "Scheduled"); ("id", JStr "m2")].

Definition match_upcoming : json :=
  JObj [("teamInfo", JArr [JObj [("name", JStr "Kenya")]]);
        ("status", JStr "UPCOMING");
        ("dateTimeGMT", JStr "2024-05-02T09:30:00"); ("id", JStr "m3")].

(** A match whose team list is present and empty, and one whose status
    is null. *)
Definition match_no_teams : json :=
  JObj [("teamInfo", JArr []); ("status", JStr "Scheduled")].

Definition match_null_status : json :=
  JObj [("status", JNull); ("id", JStr "m4")].

Definition answer (items : list json) (u : string)
    (params : list (string * json)) : result LiveData.response :=
  Ok {| LiveData.status_code := 200; LiveData.reason := "OK";
        LiveData.text := "";
        LiveData.body :=
          Ok (JObj [("status", JStr "success"); ("data", JArr items)]) |}.

Definition info_live : LiveData.match_info :=
  {| LiveData.team1 := JStr "India"; LiveData.team2 := JStr "Australia";
     LiveData.venue := JStr "Mumbai";
     LiveData.status := JStr "India need 20 runs";
     LiveData.start_time := JStr "2024-05-01T14:00:00";
     LiveData.match_id := JStr "m1"; LiveData.score := JArr [] |}.

Definition info_scheduled : LiveData.match_info :=
  {| LiveData.team1 := JStr "England"; LiveData.team2 := JStr "Pakistan";
     LiveData.venue := JStr "N/A"; LiveData.status := JStr "Scheduled";
     LiveData.start_time := JStr "N/A";
     LiveData.match_id := JStr "m2"; LiveData.score := JArr [] |}.

Definition info_upcoming : LiveData.match_info :=
  {| LiveData.team1 := JStr "Kenya"; LiveData.team2 := JStr "N/A";
     LiveData.venue := JStr "N/A"; LiveData.status := JStr "UPCOMING";
     LiveData.start_time := JStr "2024-05-02T09:30:00";
     LiveData.match_id := JStr "m3"; LiveData.score := JArr [] |}.

Definition info_null_status : LiveData.match_info :=
  {| LiveData.team1 := JStr "N/A"; LiveData.team2 := JStr "N/A";
     LiveData.venue := JStr "N/A"; LiveData.status := JNull;
     LiveData.start_time := JStr "N/A";
     LiveData.match_id := JStr "m4"; LiveData.score := JArr [] |}.

Definition three_matches : list json :=
  [match_live; match_scheduled; match_upcoming].

Definition feed : list LiveData.match_info :=
  [info_live; info_scheduled; info_upcoming].

(** One innings of a score list, and how to print a container. *)
Definition innings_line : json :=
  JObj [("inning", JStr "India Inning 1"); ("r", JInt 250); ("w", JInt 7);
        ("o", JInt 50)].

Definition no_repr (v : json) : string := "<container>".

(** Scorecard answers: one with the scorecard, one without "data". *)
Definition scorecard_answer (fields : list (string * json)) (u : string)
    (params : list (string * json)) : result LiveData.response :=
  Ok {| LiveData.status_code := 200; LiveData.reason := "OK";
        LiveData.text := ""; LiveData.body := Ok (JObj fields) |}.

Definition with_data : list (string * json) :=
  [("status", JStr "success"); ("data", scorecard)].

Definition without_data : list (string * json) :=
  [("status", JStr "success")].

End Cases.

(* ===================================================================== *)
(** * Facts about the run-time model *)
(* ===================================================================== *)

Import Spec.

Section Monad.
Context {S A B : Type}.

Lemma bind_ok (c : Py S A) (k : A -> Py S B) s l a s' l' :
  c s l = Outcome (Ok a) s' l' -> bind c k s l = k a s' l'.
Proof. intros H. unfold bind. now rewrite H. Qed.

Lemma bind_raise (c : Py S A) (k : A -> Py S B) s l e s' l' :
  c s l = Outcome (Raise e) s' l' ->
  bind c k s l = Outcome (Raise e) s' l'.
Proof. intros H. unfold bind. now rewrite H. Qed.

End Monad.

Lemma traverse_Forall2 {X Y} (f : X -> result Y) xs ys :
  traverse f xs = Ok ys <-> Forall2 (fun x y => f x = Ok y) xs ys.
Proof.
  revert ys. induction xs as [|x xs IH]; intros ys; simpl.
  - split; intros H.
    + injection H as <-. constructor.
    + inversion H. reflexivity.
  - destruct (f x) as [y|e] eqn:Hx; simpl.
    + destruct (traverse f xs) as [zs|e] eqn:Hxs; simpl.
      * split; intros H.
        -- injection H as <-. constructor; [exact Hx | now apply IH].
        -- inversion H as [|? y' ? zs' Hy Hrest]; subst.
           rewrite Hx in Hy. injection Hy as <-.
           apply IH in Hrest. now injection Hrest as <-.
      * split; intros H; [discriminate|].
        inversion H as [|? y' ? zs' Hy Hrest]; subst.
        apply IH in Hrest. discriminate.
    + split; intros H; [discriminate|].
      inversion H as [|? y' ? zs' Hy Hrest]; subst.
      rewrite Hx in Hy. discriminate.
Qed.

Section RetrieverFacts.
Context {B : Backend}.
Import Retriever.

Lemma with_documents_twice (s : Retriever) a b :
  with_documents (with_documents s a) b = with_documents s b.
Proof. reflexivity. Qed.

Lemma with_documents_same (s : Retriever) :
  with_documents s (documents s) = s.
Proof. now destruct s. Qed.

Lemma player_step_appends :
  appends player_step (fun p => rbind (player_text p) (fun t => Ok [t])).
Proof.
  intros x s l. unfold player_step, bind, lift.
  destruct (player_text x) as [t|e]; reflexivity.
Qed.

Lemma faq_step_appends : appends faq_step faq_passages.
Proof.
  intros x s l. unfold faq_step, faq_passages, bind, lift.
  destruct (py_get x "question" (JStr "")) as [q|e]; [|reflexivity]. simpl.
  destruct (py_strip q) as [question|e]; [|reflexivity]. simpl.
  destruct (py_get x "answer" (JStr "")) as [a|e]; [|reflexivity]. simpl.
  destruct (py_strip a) as [answer|e]; [|reflexivity]. simpl.
  destruct (negb (question =? "")%string && negb (answer =? "")%string).
  - reflexivity.
  - unfold ret. rewrite app_nil_r, with_documents_same. reflexivity.
Qed.

Lemma for_each_appends step contrib :
  appends step contrib ->
  forall xs s l,
    match traverse contrib xs with
    | Ok dss =>
        for_each xs step s l =
        Outcome (Ok tt) (with_documents s (documents s ++ List.concat dss)) l
    | Raise e => exists s', for_each xs step s l = Outcome (Raise e) s' l
    end.
Proof.
  intros Hstep xs. induction xs as [|x xs IH]; intros s l; simpl.
  - unfold ret. now rewrite app_nil_r, with_documents_same.
  - unfold bind. rewrite Hstep.
    destruct (contrib x) as [ds|e]; simpl.
    + specialize (IH (with_documents s (documents s ++ ds)) l).
      destruct (traverse contrib xs) as [dss|e]; simpl.
      * rewrite IH. simpl. now rewrite <- app_assoc.
      * exact IH.
    + now exists s.
Qed.

Lemma traverse_singletons {X Y} (f : X -> result Y) xs :
  traverse (fun x => rbind (f x) (fun t => Ok [t])) xs =
  rbind (traverse f xs) (fun ts => Ok (map (fun t => [t]) ts)).
Proof.
  induction xs as [|x xs IH]; simpl; [reflexivity|].
  destruct (f x); simpl; [|reflexivity].
  rewrite IH. destruct (traverse f xs); reflexivity.
Qed.

Lemma concat_singletons {Y} (ts : list Y) :
  List.concat (map (fun t => [t]) ts) = ts.
Proof. induction ts; simpl; congruence. Qed.

Lemma _load_json_run fs path s l :
  _load_json fs path s l =
  Outcome (Ok (loaded fs path)) s (l ++ load_warning fs path).
Proof.
  unfold _load_json, try_except, lift, loaded, load_warning.
  destruct (fs path); simpl.
  - now rewrite app_nil_r.
  - reflexivity.
Qed.

End RetrieverFacts.
Section RetrieverConstruct.
Context {B : Backend}.
Import Retriever.

Lemma _build_index_run (s : Retriever) l :
  _build_index s l =
  match documents s with
  | [] => Outcome (Raise no_documents) s l
  | _ :: _ =>
      Outcome (Ok tt)
        (with_index (with_doc_embeddings s (map embed (documents s)))
           {| Faiss.xb := map embed (documents s) |})
        (l ++ [ModelEncode (documents s);
               IndexAdd (List.length (documents s))])
  end.
Proof.
  unfold _build_index, bind, get. destruct (documents s) as [|d ds] eqn:Hd.
  - reflexivity.
  - cbn. unfold with_index, with_doc_embeddings; cbn. rewrite Hd.
    rewrite <- app_assoc. cbn. now rewrite length_map.
Qed.

Lemma load_faqs_run fs (f : option string) (s : Retriever) l :
  match f with
  | Some p => if (p =? "")%string then ret (JArr []) else _load_json fs p
  | None => ret (JArr [])
  end s l = Outcome (Ok (faq_source fs f)) s (l ++ faq_warning fs f).
Proof.
  unfold faq_source, faq_warning. destruct f as [p|].
  - destruct (p =? "")%string.
    + unfold ret. now rewrite app_nil_r.
    + apply _load_json_run.
  - unfold ret. now rewrite app_nil_r.
Qed.

Lemma load_data_run fs p m f (s : Retriever) l :
  load_data fs p m f s l =
  Outcome (Ok tt)
    (with_faqs (with_match_conditions (with_player_stats s (loaded fs p))
                  (loaded fs m)) (faq_source fs f))
    (l ++ load_warning fs p ++ load_warning fs m ++ faq_warning fs f).
Proof.
  unfold load_data.
  erewrite bind_ok by apply _load_json_run.
  erewrite bind_ok by reflexivity.
  erewrite bind_ok by apply _load_json_run.
  erewrite bind_ok by reflexivity.
  erewrite bind_ok by apply load_faqs_run.
  cbn. now rewrite <- !app_assoc.
Qed.

Lemma process_player_stats_run (s : Retriever) l :
  match rbind (py_iter (player_stats s)) (traverse player_text) with
  | Ok pp =>
      process_player_stats s l =
      Outcome (Ok tt) (with_documents s (documents s ++ pp)) l
  | Raise e => exists s', process_player_stats s l = Outcome (Raise e) s' l
  end.
Proof.
  unfold process_player_stats.
  erewrite bind_ok by reflexivity.
  destruct (py_iter (player_stats s)) as [players|e] eqn:Hi; simpl.
  - erewrite bind_ok by reflexivity.
    pose proof (for_each_appends _ _ player_step_appends players s l) as Hp.
    rewrite traverse_singletons in Hp.
    destruct (traverse player_text players) as [pp|e]; simpl in *.
    + now rewrite Hp, concat_singletons.
    + exact Hp.
  - exists s. now erewrite bind_raise by reflexivity.
Qed.

Lemma process_match_conditions_run (s : Retriever) l :
  process_match_conditions s l =
  match cond_passages (match_conditions s) with
  | Ok cc => Outcome (Ok tt) (with_documents s (documents s ++ cc)) l
  | Raise e => Outcome (Raise e) s l
  end.
Proof.
  unfold process_match_conditions, cond_passages.
  erewrite bind_ok by reflexivity.
  destruct (truthy (match_conditions s)).
  - unfold bind, lift. destruct (cond_text (match_conditions s)); reflexivity.
  - unfold ret. now rewrite app_nil_r, with_documents_same.
Qed.

Lemma process_faqs_run (s : Retriever) l :
  match rbind (py_iter (faqs s)) (traverse faq_passages) with
  | Ok ff =>
      process_faqs s l =
      Outcome (Ok tt) (with_documents s (documents s ++ List.concat ff)) l
  | Raise e => exists s', process_faqs s l = Outcome (Raise e) s' l
  end.
Proof.
  unfold process_faqs.
  erewrite bind_ok by reflexivity.
  destruct (py_iter (faqs s)) as [records|e] eqn:Hi; simpl.
  - erewrite bind_ok by reflexivity.
    apply (for_each_appends _ _ faq_step_appends).
  - exists s. now erewrite bind_raise by reflexivity.
Qed.

(** What [__init__] does to a fresh object, in terms of the corpus of the
    loaded sources. *)
Lemma init_run fs p m f :
  let ps := loaded fs p in
  let mc := loaded fs m in
  let fq := faq_source fs f in
  let w := load_warning fs p ++ load_warning fs m ++ faq_warning fs f in
  match corpus ps mc fq with
  | Ok [] =>
      exists s', __init__ fs p m f fresh [] = Outcome (Raise no_documents) s' w
  | Ok (d :: ds) =>
      __init__ fs p m f fresh [] =
      Outcome (Ok tt) (instance ps mc fq (d :: ds))
        (w ++ [ModelEncode (d :: ds); IndexAdd (List.length (d :: ds))])
  | Raise e => exists s', __init__ fs p m f fresh [] = Outcome (Raise e) s' w
  end.
Proof.
  intros ps mc fq w. unfold __init__.
  erewrite bind_ok by reflexivity.
  erewrite bind_ok by apply load_data_run.
  cbn [app]. fold ps mc fq w.
  set (s0 := with_faqs _ _).
  pose proof (process_player_stats_run s0 w) as Hp.
  unfold corpus.
  change (player_stats s0) with ps in Hp.
  destruct (rbind (py_iter ps) (traverse player_text)) as [pp|e]; simpl.
  2:{ destruct Hp as [s' Hp]. exists s'. now erewrite bind_raise by exact Hp. }
  erewrite bind_ok by exact Hp. clear Hp.
  set (s1 := with_documents s0 _).
  pose proof (process_match_conditions_run s1 w) as Hc.
  change (match_conditions s1) with mc in Hc.
  destruct (cond_passages mc) as [cc|e]; simpl.
  2:{ exists s1. now erewrite bind_raise by exact Hc. }
  erewrite bind_ok by exact Hc. clear Hc.
  set (s2 := with_documents s1 _).
  pose proof (process_faqs_run s2 w) as Hf.
  change (faqs s2) with fq in Hf.
  destruct (rbind (py_iter fq) (traverse faq_passages)) as [ff|e]; simpl.
  2:{ destruct Hf as [s' Hf]. exists s'. now erewrite bind_raise by exact Hf. }
  erewrite bind_ok by exact Hf. clear Hf.
  rewrite _build_index_run. cbn. rewrite <- !app_assoc.
  destruct (pp ++ cc ++ List.concat ff) as [|d ds] eqn:Hdocs.
  - eexists. reflexivity.
  - reflexivity.
Qed.

Lemma construct_run fs p m f :
  let ps := loaded fs p in
  let mc := loaded fs m in
  let fq := faq_source fs f in
  let w := load_warning fs p ++ load_warning fs m ++ faq_warning fs f in
  construct fs p m f =
  match corpus ps mc fq with
  | Ok [] => (Raise no_documents, w)
  | Ok (d :: ds) =>
      (Ok (instance ps mc fq (d :: ds)),
       w ++ [ModelEncode (d :: ds); IndexAdd (List.length (d :: ds))])
  | Raise e => (Raise e, w)
  end.
Proof.
  intros ps mc fq w. unfold construct.
  pose proof (init_run fs p m f) as H. cbv zeta in H. fold ps mc fq w in H.
  destruct (corpus ps mc fq) as [[|d ds]|e].
  - destruct H as [s' ->]. reflexivity.
  - rewrite H. reflexivity.
  - destruct H as [s' ->]. reflexivity.
Qed.

End RetrieverConstruct.
Lemma In_firstn {A} (x : A) n : forall l, In x (firstn n l) -> In x l.
Proof.
  induction n as [|n IH]; intros [|y l]; simpl; try tauto.
  intros [H|H]; auto.
Qed.

Section FaissFacts.
Context {B : Backend}.
Import Faiss.

Lemma insert_ranked_length x l :
  List.length (insert_ranked x l) = S (List.length l).
Proof.
  induction l as [|y l IH]; simpl; [reflexivity|].
  destruct (dist_ltb (fst x) (fst y)); simpl; congruence.
Qed.

Lemma insert_ranked_In x l c :
  In c (insert_ranked x l) -> c = x \/ In c l.
Proof.
  induction l as [|y l IH]; simpl.
  - intros [H|[]]; auto.
  - destruct (dist_ltb (fst x) (fst y)); simpl.
    + intros [H|[H|H]]; auto.
    + intros [H|H]; auto. apply IH in H. tauto.
Qed.

Lemma rank_from_length q vs : forall i acc,
  List.length (rank_from q i vs acc) = (List.length acc + List.length vs)%nat.
Proof.
  induction vs as [|v vs IH]; intros i acc; simpl.
  - lia.
  - rewrite IH, insert_ranked_length. lia.
Qed.

Lemma rank_from_labels q vs : forall i acc c,
  In c (rank_from q i vs acc) ->
  In c acc \/ i <= snd c < i + Z.of_nat (List.length vs).
Proof.
  induction vs as [|v vs IH]; intros i acc c; simpl List.length.
  - simpl. auto.
  - intros H. apply IH in H. destruct H as [H|H].
    + apply insert_ranked_In in H. destruct H as [->|H]; [|auto].
      right. simpl. lia.
    + right. lia.
Qed.

(** A row has exactly [k] labels, each a stored position or the filler
    [-1]; the filler occurs as soon as [k] exceeds the number of vectors. *)
Lemma search_row_labels idx k q :
  let row := snd (search_row idx k q) in
  List.length row = Z.to_nat k /\
  Forall (fun i => i = -1 \/ 0 <= i < ntotal idx) row.
Proof.
  unfold search_row; cbn [snd]. split.
  - rewrite length_app, length_map, repeat_length.
    pose proof (firstn_le_length (Z.to_nat k) (rank_from q 0 (xb idx) [])).
    lia.
  - apply Forall_app. split.
    + apply Forall_forall. intros i Hi. apply in_map_iff in Hi.
      destruct Hi as [c [<- Hc]]. apply In_firstn in Hc.
      apply rank_from_labels in Hc. destruct Hc as [[]|Hc].
      right. unfold ntotal. lia.
    + apply Forall_forall. intros i Hi. apply repeat_spec in Hi. auto.
Qed.

Lemma search_row_filler idx k q :
  ntotal idx < k ->
  In (-1) (snd (search_row idx k q)).
Proof.
  unfold search_row, ntotal; cbn [snd]. intros Hk.
  apply in_or_app. right.
  set (best := firstn _ _).
  assert (Hb : (List.length best <= List.length (xb idx))%nat).
  { unfold best. rewrite length_firstn, rank_from_length. simpl. lia. }
  destruct (Z.to_nat k - List.length best)%nat as [|n] eqn:Hn; [lia|].
  simpl. auto.
Qed.

End FaissFacts.

Section RetrieveFacts.
Context {B : Backend}.
Import Retriever.

Lemma list_getitem_filler {A} (xs : list A) (x : A) :
  list_getitem (xs ++ [x]) (-1) = Ok x.
Proof.
  unfold list_getitem. rewrite length_app. simpl List.length.
  replace (-1 <? 0) with true by reflexivity.
  set (n := Z.of_nat (List.length xs + 1)).
  assert (Hn : n + -1 = Z.of_nat (List.length xs)) by (unfold n; lia).
  rewrite Hn.
  destruct (Z.ltb_spec (Z.of_nat (List.length xs)) 0); [lia|].
  destruct (Z.leb_spec n (Z.of_nat (List.length xs))); [lia|]. simpl.
  rewrite Nat2Z.id, nth_error_app2, Nat.sub_diag by lia. reflexivity.
Qed.

Lemma list_getitem_valid {A} (xs : list A) i :
  0 <= i < Z.of_nat (List.length xs) ->
  exists x, list_getitem xs i = Ok x /\ nth_error xs (Z.to_nat i) = Some x.
Proof.
  intros Hi. unfold list_getitem.
  destruct (Z.ltb_spec i 0); [lia|].
  destruct (Z.ltb_spec i 0); [lia|].
  destruct (Z.leb_spec (Z.of_nat (List.length xs)) i); [lia|]. simpl.
  destruct (nth_error xs (Z.to_nat i)) as [x|] eqn:Hx.
  - now exists x.
  - apply nth_error_None in Hx. lia.
Qed.

(** On a non-empty corpus the comprehension keeps every label a search can
    return, the filler included. *)
Lemma select_documents_keeps_all docs row :
  docs <> [] ->
  Forall (fun i => i = -1 \/ 0 <= i < Z.of_nat (List.length docs)) row ->
  exists ds, select_documents docs row = Ok ds /\
             List.length ds = List.length row /\
             Forall (fun d => In d docs) ds.
Proof.
  intros Hne Hrow. induction Hrow as [|i row Hi Hrow IH].
  - exists []. simpl. auto.
  - destruct IH as [ds [Hds [Hlen Hin]]]. simpl.
    assert (Hlt : i < Z.of_nat (List.length docs)).
    { destruct Hi as [->|Hi]; [|lia].
      destruct docs; [congruence|]. simpl List.length. lia. }
    destruct (Z.ltb_spec i (Z.of_nat (List.length docs))); [|lia].
    assert (Hd : exists d, list_getitem docs i = Ok d /\ In d docs).
    { destruct Hi as [->|Hi].
      - destruct (exists_last Hne) as [xs [x ->]].
        exists x. split; [apply list_getitem_filler|].
        apply in_or_app. right. simpl. auto.
      - destruct (list_getitem_valid docs i Hi) as [x [Hx Hn]].
        exists x. split; [exact Hx|]. eapply nth_error_In; eauto. }
    destruct Hd as [d [Hd Hind]]. rewrite Hd, Hds. simpl.
    exists (d :: ds). simpl. auto.
Qed.

(** [retrieve] never assigns to the object. *)
Lemma retrieve_state q k (self : Retriever) l :
  state (retrieve q k self l) = self.
Proof.
  unfold retrieve. destruct (q =? "")%string; [reflexivity|].
  cbv [bind model_encode emit ret get lift].
  destruct (Faiss.search (index self) (map embed [q]) k) as [found|e];
    [|reflexivity].
  destruct (list_getitem (snd found) 0); reflexivity.
Qed.

(** For a non-empty query and a positive [top_k], [retrieve] on a
    constructed object answers with exactly [top_k] passages of the corpus. *)
Lemma retrieve_returns_top_k ps mc fq d ds q k l :
  q <> EmptyString -> 0 < k ->
  exists out,
    retrieve q k (instance ps mc fq (d :: ds)) l =
    Outcome (Ok out) (instance ps mc fq (d :: ds))
      (l ++ [ModelEncode [q]; IndexSearch k]) /\
    List.length out = Z.to_nat k /\
    Forall (fun t => In t (d :: ds)) out.
Proof.
  intros Hq Hk. unfold retrieve.
  destruct (String.eqb_spec q ""); [contradiction|].
  set (self := instance ps mc fq (d :: ds)).
  destruct (search_row_labels (index self) k (embed q)) as [Hlen Hall].
  assert (Hn : Faiss.ntotal (index self) =
               Z.of_nat (List.length (d :: ds))).
  { unfold Faiss.ntotal, self. cbn [index instance Faiss.xb].
    now rewrite length_map. }
  rewrite Hn in Hall.
  destruct (select_documents_keeps_all (d :: ds) _ ltac:(discriminate) Hall)
    as [out [Hout [Hlo Hin]]].
  exists out. split; [|split; [congruence | exact Hin]].
  cbv [bind model_encode emit ret get lift Faiss.search].
  destruct (Z.leb_spec k 0); [lia|].
  cbn [map snd fst]. unfold list_getitem; cbn [List.length nth_error Z.to_nat].
  cbn. change (documents self) with (d :: ds).
  cbn in Hout. rewrite Hout. now rewrite <- app_assoc.
Qed.

(** Asked for more neighbours than the corpus has passages, a constructed
    retriever answers with more strings than the corpus holds. *)
Lemma retrieve_beyond_corpus ps mc fq d ds q k l :
  q <> EmptyString -> Z.of_nat (List.length (d :: ds)) < k ->
  exists out,
    value (retrieve q k (instance ps mc fq (d :: ds)) l) = Ok out /\
    (List.length (d :: ds) < List.length out)%nat.
Proof.
  intros Hq Hk.
  destruct (retrieve_returns_top_k ps mc fq d ds q k l Hq ltac:(lia))
    as [out [Hrun [Hlen _]]].
  exists out. rewrite Hrun. split; [reflexivity|]. lia.
Qed.

Lemma select_documents_length docs row ds :
  Retriever.select_documents docs row = Ok ds ->
  (List.length ds <= List.length row)%nat.
Proof.
  revert ds. induction row as [|i row IH]; intros ds; simpl.
  - intros H. injection H as <-. simpl. lia.
  - destruct (i <? Z.of_nat (List.length docs)).
    + destruct (list_getitem docs i) as [d|]; [|discriminate]. simpl.
      destruct (select_documents docs row) as [ds'|]; [|discriminate].
      simpl. intros H. injection H as <-. specialize (IH ds' eq_refl).
      simpl. lia.
    + intros H. specialize (IH ds H). lia.
Qed.

(** Whatever [retrieve] returns has at most [top_k] strings. *)
Lemma retrieve_at_most_top_k (self : Retriever) q k l out :
  value (retrieve q k self l) = Ok out ->
  (List.length out <= Z.to_nat k)%nat.
Proof.
  unfold retrieve. destruct (q =? "")%string.
  - simpl. intros H. injection H as <-. simpl. lia.
  - cbv [bind model_encode emit ret get lift Faiss.search].
    destruct (k <=? 0); [discriminate|].
    cbn [map snd fst]. unfold list_getitem at 1.
    cbn [List.length nth_error Z.to_nat Z.of_nat Pos.of_succ_nat Z.ltb
         Z.leb Z.compare orb].
    cbn. intros H. apply select_documents_length in H.
    destruct (search_row_labels (index self) k (embed q)) as [Hlen _].
    cbn in Hlen. lia.
Qed.

End RetrieveFacts.
(* ===================================================================== *)
(** * The retrieval engine against its specification *)
(* ===================================================================== *)

Section RetrieverProperties.
Context {B : Backend}.
Import Retriever.

Lemma faq_passages_fields faq ts :
  faq_passages faq = Ok ts ->
  exists q a, faq_field faq "question" = Some q /\
              faq_field faq "answer" = Some a /\
              ts = faq_contribution q a.
Proof.
  unfold faq_passages, faq_field, faq_contribution, blank, py_get.
  destruct faq as [| | | |?|fields]; try discriminate.
  destruct (assoc "question" fields) as [[| | |q| |]|]; try discriminate;
  destruct (assoc "answer" fields) as [[| | |a| |]|]; try discriminate;
  simpl; intros H; injection H as <-.
  - exists q, a. repeat split.
    destruct (strip q =? "")%string, (strip a =? "")%string; reflexivity.
  - exists q, EmptyString. repeat split.
    destruct (strip q =? "")%string; reflexivity.
  - exists EmptyString, a. repeat split.
  - exists EmptyString, EmptyString. repeat split.
Qed.




(** C4. When the loaded sources yield no passage at all, construction
    raises [ValueError] and no instance results. *)
Theorem empty_corpus_is_fatal fs p m f :
  corpus (loaded fs p) (loaded fs m) (faq_source fs f) = Ok [] ->
  fst (construct fs p m f) =
  Raise (ValueError "No documents found for retrieval.").
Proof.
  intros H. rewrite construct_run. cbv zeta. now rewrite H.
Qed.

Lemma construct_ok fs p m f r evs :
  construct fs p m f = (Ok r, evs) ->
  exists d ds,
    corpus (loaded fs p) (loaded fs m) (faq_source fs f) = Ok (d :: ds) /\
    r = instance (loaded fs p) (loaded fs m) (faq_source fs f) (d :: ds) /\
    evs = (load_warning fs p ++ load_warning fs m ++ faq_warning fs f)
          ++ [ModelEncode (d :: ds); IndexAdd (List.length (d :: ds))].
Proof.
  rewrite construct_run. cbv zeta.
  destruct (corpus (loaded fs p) (loaded fs m) (faq_source fs f))
    as [[|d ds]|e]; intros H; try discriminate.
  injection H as <- <-. now exists d, ds.
Qed.

(** C5. After a successful construction there are as many vectors as
    passages, vector [i] is the embedding of passage [i], the index holds
    exactly these vectors in this order, and [retrieve] leaves the object as
    it found it. *)
Theorem alignment_invariant fs p m f r evs :
  construct fs p m f = (Ok r, evs) ->
  List.length (doc_embeddings r) = List.length (documents r) /\
  (forall i d, nth_error (documents r) i = Some d ->
               nth_error (doc_embeddings r) i = Some (embed d)) /\
  Faiss.xb (index r) = doc_embeddings r /\
  (forall q k l, state (retrieve q k r l) = r).
Proof.
  intros H. apply construct_ok in H. destruct H as [d [ds [_ [-> _]]]].
  cbn [instance doc_embeddings documents index Faiss.xb].
  repeat split.
  - apply length_map.
  - intros i t Hi. now apply map_nth_error.
  - intros q k l. apply retrieve_state.
Qed.

(** C6. The corpus of a constructed retriever is the player passages, one
    per record and in record order, then the match-conditions passage when
    the loaded record is non-empty (nothing otherwise), then the passages of
    the FAQ records, in record order, each record giving one passage or,
    when a field is blank, none. *)
Theorem corpus_order fs p m f r evs :
  construct fs p m f = (Ok r, evs) ->
  exists players ptexts ctexts records ftexts,
    py_iter (loaded fs p) = Ok players /\
    Forall2 (fun rec t => player_text rec = Ok t) players ptexts /\
    (truthy (loaded fs m) = true ->
     exists t, cond_text (loaded fs m) = Ok t /\ ctexts = [t]) /\
    (truthy (loaded fs m) = false -> ctexts = []) /\
    py_iter (faq_source fs f) = Ok records /\
    Forall2 (fun rec ts =>
               exists q a, faq_field rec "question" = Some q /\
                           faq_field rec "answer" = Some a /\
                           ts = faq_contribution q a) records ftexts /\
    documents r = ptexts ++ ctexts ++ List.concat ftexts.
Proof.
  intros H. apply construct_ok in H. destruct H as [d [ds [Hc [-> _]]]].
  cbn [instance documents].
  unfold corpus in Hc.
  destruct (py_iter (loaded fs p)) as [players|] eqn:Hp; [|discriminate].
  cbn [rbind] in Hc.
  destruct (traverse player_text players) as [pp|] eqn:Hpp; [|discriminate].
  cbn [rbind] in Hc.
  destruct (cond_passages (loaded fs m)) as [cc|] eqn:Hcc; [|discriminate].
  cbn [rbind] in Hc.
  destruct (py_iter (faq_source fs f)) as [records|] eqn:Hf; [|discriminate].
  cbn [rbind] in Hc.
  destruct (traverse faq_passages records) as [ff|] eqn:Hff; [|discriminate].
  cbn [rbind] in Hc. injection Hc as Hc.
  exists players, pp, cc, records, ff. repeat split.
  - now apply traverse_Forall2.
  - intros Ht. unfold cond_passages in Hcc. rewrite Ht in Hcc.
    destruct (cond_text (loaded fs m)) as [t|]; [|discriminate].
    injection Hcc as <-. now exists t.
  - intros Ht. unfold cond_passages in Hcc. rewrite Ht in Hcc.
    now injection Hcc as <-.
  - apply traverse_Forall2 in Hff.
    eapply Forall2_impl; [|exact Hff].
    intros rec ts. apply faq_passages_fields.
  - now rewrite Hc.
Qed.

(** C8. A source that cannot be read does not stop construction: whenever
    the sources, with each unreadable one counted as the empty list, yield
    at least one passage, construction succeeds with exactly that corpus;
    the attribute of each unreadable source holds the empty list and a
    warning naming its path was printed. *)
Theorem malformed_source_resilience fs p m f docs :
  corpus (loaded fs p) (loaded fs m) (faq_source fs f) = Ok docs ->
  docs <> [] ->
  exists r evs,
    construct fs p m f = (Ok r, evs) /\
    documents r = docs /\
    (forall e, fs p = Raise e ->
       player_stats r = JArr [] /\ In (PrintLoadError p) evs) /\
    (forall e, fs m = Raise e ->
       match_conditions r = JArr [] /\ In (PrintLoadError m) evs) /\
    (forall path e, f = Some path -> path <> EmptyString ->
       fs path = Raise e ->
       faqs r = JArr [] /\ In (PrintLoadError path) evs).
Proof.
  intros Hc Hne. destruct docs as [|d ds]; [congruence|].
  eexists. eexists. split.
  { rewrite construct_run. cbv zeta. rewrite Hc. reflexivity. }
  cbn [instance documents player_stats match_conditions faqs].
  split; [reflexivity|]. split; [|split].
  - intros e Hp. split.
    + unfold loaded. now rewrite Hp.
    + unfold load_warning. rewrite Hp. simpl. auto.
  - intros e Hm. split.
    + unfold loaded. now rewrite Hm.
    + unfold load_warning. rewrite Hm.
      apply in_or_app. left. apply in_or_app. right. simpl. auto.
  - intros path e -> Hpath Hf. split.
    + unfold faq_source, loaded.
      destruct (String.eqb_spec path ""); [contradiction|]. now rewrite Hf.
    + unfold faq_warning, load_warning.
      destruct (String.eqb_spec path ""); [contradiction|]. rewrite Hf.
      apply in_or_app. left. apply in_or_app. right.
      apply in_or_app. right. simpl. auto.
Qed.

(** C3 as amended. On the empty query [retrieve] returns the empty list at
    once: the object is untouched and nothing is logged, so neither the
    embedding model nor the index was called.  Every other query, a
    whitespace-only one included, is passed to the model and then to the
    index search. *)
Theorem retrieve_empty_query (self : Retriever) k l :
  retrieve EmptyString k self l = Outcome (Ok []) self l /\
  (forall q, q <> EmptyString ->
     exists v, retrieve q k self l =
               Outcome v self (l ++ [ModelEncode [q]; IndexSearch k])).
Proof.
  split; [reflexivity|].
  intros q Hq. unfold retrieve.
  destruct (String.eqb_spec q ""); [contradiction|].
  cbv [bind model_encode emit ret get lift].
  rewrite <- app_assoc. cbn [app].
  destruct (Faiss.search (index self) (map embed [q]) k) as [found|e].
  - destruct (list_getitem (snd found) 0) as [row|e]; eexists; reflexivity.
  - eexists; reflexivity.
Qed.

End RetrieverProperties.
(* ===================================================================== *)
(** * The live-match feed *)
(* ===================================================================== *)

Section LiveDataProperties.
Import LiveData.

Lemma eq_str_true v s : eq_str v s = true <-> v = JStr s.
Proof.
  destruct v; simpl; split; try discriminate.
  - intros H. apply String.eqb_eq in H. now subst.
  - intros H. injection H as ->. apply String.eqb_refl.
Qed.

Lemma handler_returns_empty e s l :
  value (handler e s l) = Ok [].
Proof. destruct e; reflexivity. Qed.

(** The outcome of the whole function from the outcome of its [try] block. *)
Lemma get_live_match_data_cases getenv net s l :
  match value (try_body net (request_params getenv) s l) with
  | Ok ms => value (get_live_match_data getenv net s l) = Ok ms
  | Raise _ => value (get_live_match_data getenv net s l) = Ok []
  end.
Proof.
  unfold get_live_match_data, try_except.
  destruct (try_body net (request_params getenv) s l) as [[ms|e] s' l'];
    simpl.
  - reflexivity.
  - apply handler_returns_empty.
Qed.

(** C10. [get_live_match_data] always returns a list.  Whatever is raised
    inside the [try] block is caught and answered with the empty list: a
    failed request, an HTTP error status, a body that is not JSON; and a
    decoded answer whose status is not "success" gives the empty list as
    well. *)
Theorem get_live_match_data_never_raises getenv net :
  (forall s l, exists ms,
     value (get_live_match_data getenv net s l) = Ok ms) /\
  (forall s l e,
     value (try_body net (request_params getenv) s l) = Raise e ->
     value (get_live_match_data getenv net s l) = Ok []) /\
  (forall e, net url (request_params getenv) = Raise e ->
     call getenv net = Ok []) /\
  (forall r, net url (request_params getenv) = Ok r ->
     400 <= status_code r < 600 ->
     call getenv net = Ok []) /\
  (forall r e, net url (request_params getenv) = Ok r ->
     body r = Raise e ->
     call getenv net = Ok []) /\
  (forall r data st, net url (request_params getenv) = Ok r ->
     body r = Ok data ->
     py_get data "status" JNull = Ok st -> st <> JStr "success" ->
     call getenv net = Ok []).
Proof.
  assert (Hraise : forall s l e,
    value (try_body net (request_params getenv) s l) = Raise e ->
    value (get_live_match_data getenv net s l) = Ok []).
  { intros s l e H. pose proof (get_live_match_data_cases getenv net s l) as C.
    now rewrite H in C. }
  split; [|split; [exact Hraise|]].
  { intros s l. pose proof (get_live_match_data_cases getenv net s l) as C.
    destruct (value (try_body net (request_params getenv) s l)) as [ms|e];
      eauto. }
  repeat split.
  - intros e H. unfold call. apply (Hraise _ _ e).
    cbv [try_body bind emit lift]. now rewrite H.
  - intros r H Hs. unfold call.
    apply (Hraise _ _ (HTTPError (status_code r) (reason r) (text r))).
    cbv [try_body bind emit lift]. rewrite H. unfold raise_for_status.
    destruct (Z.leb_spec 400 (status_code r)); [|lia].
    destruct (Z.ltb_spec (status_code r) 600); [|lia]. reflexivity.
  - intros r e H Hb. unfold call.
    destruct (raise_for_status r) as [[]|e'] eqn:Hr.
    + apply (Hraise _ _ e). cbv [try_body bind emit lift].
      now rewrite H, Hr, Hb.
    + apply (Hraise _ _ e'). cbv [try_body bind emit lift].
      now rewrite H, Hr.
  - intros r data st H Hb Hst Hns. unfold call.
    destruct (raise_for_status r) as [[]|e'] eqn:Hr.
    + pose proof (get_live_match_data_cases getenv net [] []) as C.
      assert (Hne : eq_str st "success" = false).
      { destruct (eq_str st "success") eqn:E; [|reflexivity].
        apply eq_str_true in E. contradiction. }
      revert C. cbv [try_body bind emit lift ret].
      rewrite H, Hr, Hb, Hst, Hne. cbn.
      destruct (py_get data "reason" JNull); cbn; auto.
    + apply (Hraise _ _ e'). cbv [try_body bind emit lift].
      now rewrite H, Hr.
Qed.

End LiveDataProperties.
(* ===================================================================== *)
(** * Fantasy-XI selection *)
(* ===================================================================== *)

Section KeyFacts.
Import App.

Lemma hkey_eqb_eq a b : hkey_eqb a b = true <-> a = b.
Proof.
  destruct a, b; simpl; split; try discriminate; try reflexivity.
  - intros H. apply Z.eqb_eq in H. now subst.
  - intros H. injection H as ->. apply Z.eqb_refl.
  - intros H. apply String.eqb_eq in H. now subst.
  - intros H. injection H as ->. apply String.eqb_refl.
Qed.

Lemma key_eqb_true a b :
  key_eqb a b = true <->
  exists h, hash_key a = Ok h /\ hash_key b = Ok h.
Proof.
  unfold key_eqb. split.
  - destruct (hash_key a) as [x|], (hash_key b) as [y|]; try discriminate.
    intros H. apply hkey_eqb_eq in H. subst. eauto.
  - intros [h [-> ->]]. now apply hkey_eqb_eq.
Qed.

Lemma key_eqb_sym a b : key_eqb a b = key_eqb b a.
Proof.
  destruct (key_eqb a b) eqn:E.
  - symmetry. apply key_eqb_true in E. destruct E as [h [Ha Hb]].
    apply key_eqb_true. eauto.
  - destruct (key_eqb b a) eqn:E'; [|reflexivity].
    apply key_eqb_true in E'. destruct E' as [h [Ha Hb]].
    assert (key_eqb a b = true) by (apply key_eqb_true; eauto). congruence.
Qed.

(** Equal keys are interchangeable in every comparison. *)
Lemma key_eqb_subst a b x : key_eqb a b = true -> key_eqb a x = key_eqb b x.
Proof.
  intros H. apply key_eqb_true in H. destruct H as [h [Ha Hb]].
  unfold key_eqb. now rewrite Ha, Hb.
Qed.

Lemma key_eqb_refl a : hashable a = true -> key_eqb a a = true.
Proof.
  intros H. apply key_eqb_true. destruct a; try discriminate; simpl; eauto.
Qed.

Lemma key_eqb_hashable a b : key_eqb a b = true -> hashable b = true.
Proof.
  intros H. apply key_eqb_true in H. destruct H as [h [_ Hb]].
  destruct b; try discriminate; reflexivity.
Qed.

Lemma truthy_hash_key v h :
  hash_key v = Ok h ->
  truthy v = match h with
             | KNone => false
             | KInt z => negb (z =? 0)
             | KStr s => negb (s =? "")%string
             end.
Proof.
  destruct v as [|b|z|s|?|?]; simpl; intros H; try discriminate;
    injection H as <-; try reflexivity.
  now destruct b.
Qed.

Lemma key_eqb_truthy a b : key_eqb a b = true -> truthy a = truthy b.
Proof.
  intros H. apply key_eqb_true in H. destruct H as [h [Ha Hb]].
  now rewrite (truthy_hash_key a h Ha), (truthy_hash_key b h Hb).
Qed.

Lemma dict_get_set stats nm v x :
  hashable nm = true ->
  dict_get (dict_set stats nm v) x =
  if key_eqb nm x then Some v else dict_get stats x.
Proof.
  intros Hh. induction stats as [|[k w] rest IH]; simpl.
  - reflexivity.
  - destruct (key_eqb k nm) eqn:Ek; simpl.
    + rewrite (key_eqb_subst k nm x Ek).
      now destruct (key_eqb nm x).
    + rewrite IH. destruct (key_eqb nm x) eqn:Ex; [|reflexivity].
      destruct (key_eqb k x) eqn:Ekx; [|reflexivity].
      pose proof (key_eqb_subst nm x k Ex) as E.
      rewrite (key_eqb_sym nm k), (key_eqb_sym x k) in E. congruence.
Qed.

Lemma dict_get_None stats x k t :
  dict_get stats x = None -> In (k, t) stats -> key_eqb k x = false.
Proof.
  induction stats as [|[k' w] rest IH]; simpl; [tauto|].
  destruct (key_eqb k' x) eqn:E; [discriminate|].
  intros Hn [H|H]; [injection H as <- <-; exact E | auto].
Qed.

Lemma distinct_found stats k t :
  distinct stats -> In (k, t) stats -> dict_get stats k = Some t.
Proof.
  induction stats as [|[k' w] rest IH]; simpl; [tauto|].
  intros [Hr [Hn Hd]] [H|H].
  - injection H as <- <-. now rewrite Hr.
  - pose proof (dict_get_None rest k' k t Hn H) as E.
    rewrite key_eqb_sym in E. rewrite E. auto.
Qed.

Lemma distinct_set stats nm v :
  hashable nm = true -> distinct stats -> distinct (dict_set stats nm v).
Proof.
  intros Hh. induction stats as [|[k w] rest IH]; simpl.
  - intros _. repeat split. now apply key_eqb_refl.
  - intros [Hr [Hn Hd]]. destruct (key_eqb k nm) eqn:E; simpl.
    + auto.
    + repeat split; auto.
      rewrite dict_get_set by exact Hh.
      rewrite key_eqb_sym, E. exact Hn.
Qed.

End KeyFacts.
Section Accumulation.
Import App.

Lemma hashable_hash_key v : hashable v = true <-> exists h, hash_key v = Ok h.
Proof.
  destruct v; simpl; split; try discriminate; eauto;
    intros [h H]; discriminate.
Qed.

Lemma setdefault_run nm stats l :
  setdefault nm stats l =
  if hashable nm then Outcome (Ok tt) (ensure stats nm) l
  else Outcome (Raise TypeError) stats l.
Proof.
  unfold setdefault, ensure. cbv [bind lift get put ret].
  destruct nm; simpl; try reflexivity;
    match goal with |- context [dict_get ?s ?k] =>
      destruct (dict_get s k); reflexivity end.
Qed.

Lemma getitem_run nm stats l :
  hashable nm = true ->
  getitem nm stats l =
  match dict_get stats nm with
  | Some t => Outcome (Ok t) stats l
  | None => Outcome (Raise KeyError) stats l
  end.
Proof.
  intros H. unfold getitem. cbv [bind lift get ret raise].
  destruct nm; try discriminate; simpl;
    match goal with |- context [dict_get ?s ?k] =>
      destruct (dict_get s k); reflexivity end.
Qed.

Lemma ensure_get stats nm x :
  hashable nm = true ->
  dict_get (ensure stats nm) x =
  if key_eqb nm x then Some (tally_of stats nm) else dict_get stats x.
Proof.
  intros Hh. unfold ensure, tally_of.
  destruct (dict_get stats nm) as [t|] eqn:Hg.
  - destruct (key_eqb nm x) eqn:E; [|reflexivity].
    rewrite <- Hg. clear Hg.
    induction stats as [|[k w] rest IH]; simpl; [reflexivity|].
    rewrite <- (key_eqb_sym nm k), <- (key_eqb_sym x k).
    rewrite <- (key_eqb_subst nm x k E). now rewrite IH.
  - now apply dict_get_set.
Qed.

Lemma ensure_distinct stats nm :
  hashable nm = true -> distinct stats -> distinct (ensure stats nm).
Proof.
  intros Hh Hd. unfold ensure. destruct (dict_get stats nm); [exact Hd|].
  now apply distinct_set.
Qed.

Lemma int_add_value acc v r : int_add acc v = Ok r -> r = acc + int_value v.
Proof.
  unfold int_value. destruct v; simpl; try discriminate;
    intros H; now injection H as <-.
Qed.

Lemma total_app who what x es es' :
  total who what x (es ++ es') = total who what x es + total who what x es'.
Proof.
  unfold total. induction es as [|e es IH]; simpl; [reflexivity|].
  rewrite IH. lia.
Qed.

Lemma credited_subst who what a b e :
  key_eqb a b = true -> credited who what a e = credited who what b e.
Proof.
  intros H. unfold credited.
  rewrite (key_eqb_sym _ a), (key_eqb_sym _ b).
  now rewrite (key_eqb_subst a b _ H).
Qed.

Lemma total_subst who what a b es :
  key_eqb a b = true -> total who what a es = total who what b es.
Proof.
  intros H. unfold total. induction es as [|e es IH]; simpl; [reflexivity|].
  now rewrite IH, (credited_subst who what a b e H).
Qed.

(** Crediting [dr] runs and [dw] wickets to a present name keeps the
    invariant, whatever entries account for them. *)
Lemma tallied_credit stats bs ws bs' ws' nm dr dw stats2 :
  tallied stats bs ws ->
  truthy nm = true ->
  distinct stats2 ->
  (forall x, dict_get stats2 x =
             if key_eqb nm x
             then Some {| t_runs := t_runs (tally_of stats nm) + dr;
                          t_wickets := t_wickets (tally_of stats nm) + dw |}
             else dict_get stats x) ->
  (forall x, total "batsman" "r" x bs' =
             total "batsman" "r" x bs + if key_eqb nm x then dr else 0) ->
  (forall x, total "bowler" "w" x ws' =
             total "bowler" "w" x ws + if key_eqb nm x then dw else 0) ->
  tallied stats2 bs' ws'.
Proof.
  intros [Hd [Ht Hs]] Hnm Hd2 Hget Hbs Hws. repeat split.
  - exact Hd2.
  - intros x t. rewrite Hget. destruct (key_eqb nm x) eqn:E.
    + intros _. now rewrite <- (key_eqb_truthy nm x E).
    + apply Ht.
  - unfold tally_of at 1. rewrite Hget, Hbs.
    destruct (key_eqb nm x) eqn:E; simpl.
    + destruct (Hs nm Hnm) as [Hr _].
      now rewrite Hr, (total_subst _ _ nm x bs E).
    + destruct (Hs x H) as [Hr _]. unfold tally_of in Hr. rewrite Hr. lia.
  - unfold tally_of at 1. rewrite Hget, Hws.
    destruct (key_eqb nm x) eqn:E; simpl.
    + destruct (Hs nm Hnm) as [_ Hw].
      now rewrite Hw, (total_subst _ _ nm x ws E).
    + destruct (Hs x H) as [_ Hw]. unfold tally_of in Hw. rewrite Hw. lia.
Qed.

(** An entry without a name changes no total of a present name. *)
Lemma credited_absent who what x e :
  truthy (entry_name who e) = false -> truthy x = true ->
  credited who what x e = 0.
Proof.
  intros Hf Ht. unfold credited.
  destruct (key_eqb (entry_name who e) x) eqn:E; [|reflexivity].
  apply key_eqb_truthy in E. congruence.
Qed.

Lemma credited_named who what nm x e :
  entry_name who e = nm ->
  credited who what x e =
  if key_eqb nm x then int_value (field e what (JInt 0)) else 0.
Proof. intros <-. reflexivity. Qed.

Lemma batting_step_tallied b stats bs ws l u stats' l' :
  tallied stats bs ws ->
  batting_step b stats l = Outcome (Ok u) stats' l' ->
  tallied stats' (bs ++ [b]) ws /\ l' = l.
Proof.
  intros Hinv. unfold batting_step.
  unfold bind at 1. unfold lift at 1.
  destruct (py_get b "batsman" (JObj [])) as [who|] eqn:Hw; [|discriminate].
  unfold bind at 1. unfold lift at 1.
  destruct (py_get who "name" JNull) as [nm|] eqn:Hn; [|discriminate].
  assert (Hname : entry_name "batsman" b = nm).
  { unfold entry_name, field. now rewrite Hw, Hn. }
  destruct (truthy nm) eqn:Ht; simpl.
  - unfold bind at 1. rewrite setdefault_run.
    destruct (hashable nm) eqn:Hh; [|discriminate].
    unfold bind at 1. unfold lift at 1.
    destruct (py_get b "r" (JInt 0)) as [v|] eqn:Hv; [|discriminate].
    unfold add_runs. unfold bind at 1. rewrite (getitem_run _ _ _ Hh).
    rewrite ensure_get, (key_eqb_refl nm Hh) by exact Hh.
    unfold bind at 1. unfold lift at 1.
    destruct (int_add (t_runs (tally_of stats nm)) v) as [r|] eqn:Hr;
      [|discriminate].
    cbv [bind get put]. intros H. injection H as _ <- <-.
    split; [|reflexivity].
    apply int_add_value in Hr. subst r.
    apply (tallied_credit stats bs ws _ _ nm (int_value v) 0); auto.
    + apply distinct_set; [exact Hh|].
      apply ensure_distinct; [exact Hh | apply Hinv].
    + intros x. rewrite dict_get_set, ensure_get by exact Hh.
      rewrite Z.add_0_r. now destruct (key_eqb nm x).
    + intros x. rewrite total_app. simpl.
      rewrite (credited_named _ _ nm x b Hname). unfold field.
      rewrite Hv. lia.
    + intros x. destruct (key_eqb nm x); lia.
  - unfold ret. intros H. injection H as _ <- <-. split; [|reflexivity].
    destruct Hinv as [Hd [Hk Hs]]. repeat split; auto.
    + rewrite total_app. simpl. rewrite credited_absent; auto.
      * destruct (Hs x H). lia.
      * now rewrite Hname.
    + now destruct (Hs x H).
Qed.

Lemma bowling_step_tallied bw stats bs ws l u stats' l' :
  tallied stats bs ws ->
  bowling_step bw stats l = Outcome (Ok u) stats' l' ->
  tallied stats' bs (ws ++ [bw]) /\ l' = l.
Proof.
  intros Hinv. unfold bowling_step.
  unfold bind at 1. unfold lift at 1.
  destruct (py_get bw "bowler" (JObj [])) as [who|] eqn:Hw; [|discriminate].
  unfold bind at 1. unfold lift at 1.
  destruct (py_get who "name" JNull) as [nm|] eqn:Hn; [|discriminate].
  assert (Hname : entry_name "bowler" bw = nm).
  { unfold entry_name, field. now rewrite Hw, Hn. }
  destruct (truthy nm) eqn:Ht; simpl.
  - unfold bind at 1. rewrite setdefault_run.
    destruct (hashable nm) eqn:Hh; [|discriminate].
    unfold bind at 1. unfold lift at 1.
    destruct (py_get bw "w" (JInt 0)) as [v|] eqn:Hv; [|discriminate].
    unfold add_wickets. unfold bind at 1. rewrite (getitem_run _ _ _ Hh).
    rewrite ensure_get, (key_eqb_refl nm Hh) by exact Hh.
    unfold bind at 1. unfold lift at 1.
    destruct (int_add (t_wickets (tally_of stats nm)) v) as [r|] eqn:Hr;
      [|discriminate].
    cbv [bind get put]. intros H. injection H as _ <- <-.
    split; [|reflexivity].
    apply int_add_value in Hr. subst r.
    apply (tallied_credit stats bs ws _ _ nm 0 (int_value v)); auto.
    + apply distinct_set; [exact Hh|].
      apply ensure_distinct; [exact Hh | apply Hinv].
    + intros x. rewrite dict_get_set, ensure_get by exact Hh.
      rewrite Z.add_0_r. now destruct (key_eqb nm x).
    + intros x. destruct (key_eqb nm x); lia.
    + intros x. rewrite total_app. simpl.
      rewrite (credited_named _ _ nm x bw Hname). unfold field.
      rewrite Hv. lia.
  - unfold ret. intros H. injection H as _ <- <-. split; [|reflexivity].
    destruct Hinv as [Hd [Hk Hs]]. repeat split; auto.
    + now destruct (Hs x H).
    + rewrite total_app. simpl. rewrite credited_absent; auto.
      * destruct (Hs x H). lia.
      * now rewrite Hname.
Qed.

End Accumulation.
Section Loops.
Context {S X : Type}.

(** A loop keeps what each successful iteration keeps. *)
Lemma for_each_invariant (I : S -> list X -> Prop) (step : X -> Py S unit) :
  (forall x s l u s' l' seen,
     I s seen -> step x s l = Outcome (Ok u) s' l' ->
     I s' (seen ++ [x]) /\ l' = l) ->
  forall xs s l u s' l' seen,
    I s seen -> for_each xs step s l = Outcome (Ok u) s' l' ->
    I s' (seen ++ xs) /\ l' = l.
Proof.
  intros Hstep xs. induction xs as [|x xs IH]; intros s l u s' l' seen Hi.
  - simpl. unfold ret. intros H. injection H as _ <- <-.
    now rewrite app_nil_r.
  - simpl. unfold bind.
    destruct (step x s l) as [[u1|e] s1 l1] eqn:Hx; [|discriminate].
    intros H. destruct (Hstep _ _ _ _ _ _ _ Hi Hx) as [Hi1 ->].
    destruct (IH _ _ _ _ _ _ Hi1 H) as [Hi2 ->].
    rewrite <- app_assoc in Hi2. auto.
Qed.

(** A loop whose iterations all return, returns. *)
Lemma for_each_total (step : X -> Py S unit) xs :
  (forall x, In x xs -> forall s l, exists s',
     step x s l = Outcome (Ok tt) s' l) ->
  forall s l, exists s', for_each xs step s l = Outcome (Ok tt) s' l.
Proof.
  induction xs as [|x xs IH]; intros Hstep s l; simpl.
  - now exists s.
  - destruct (Hstep x (or_introl eq_refl) s l) as [s1 H1].
    destruct (IH (fun y Hy => Hstep y (or_intror Hy)) s1 l) as [s2 H2].
    exists s2. unfold bind. now rewrite H1.
Qed.

End Loops.

Section Selection.
Import App.

Lemma innings_step_tallied inn stats bs ws l u stats' l' :
  tallied stats bs ws ->
  innings_step inn stats l = Outcome (Ok u) stats' l' ->
  tallied stats' (bs ++ batting_of inn) (ws ++ bowling_of inn) /\ l' = l.
Proof.
  intros Hinv. unfold innings_step, batting_of, bowling_of, items, field.
  unfold bind at 1. unfold lift at 1.
  destruct (py_get inn "batting" (JArr [])) as [bv|]; [|discriminate].
  cbn [rbind]. destruct (py_iter bv) as [batting|]; [|discriminate].
  unfold bind at 1.
  destruct (for_each batting batting_step stats l) as [[u1|] s1 l1] eqn:Hb;
    [|discriminate].
  destruct (for_each_invariant (fun s seen => tallied s seen ws) batting_step
              (fun x s l u s' l' seen => batting_step_tallied x s seen ws l u s' l')
              _ _ _ _ _ _ bs Hinv Hb) as [H1 ->].
  unfold bind at 1. unfold lift at 1.
  destruct (py_get inn "bowling" (JArr [])) as [wv|]; [|discriminate].
  cbn [rbind]. destruct (py_iter wv) as [bowling|]; [|discriminate].
  intros Hw.
  exact (for_each_invariant (fun s seen => tallied s (bs ++ batting) seen)
           bowling_step
           (fun x s l u s' l' seen =>
              bowling_step_tallied x s (bs ++ batting) seen l u s' l')
           _ _ _ _ _ _ ws H1 Hw).
Qed.

Lemma tallied_empty : tallied [] [] [].
Proof.
  repeat split; simpl; auto. discriminate.
Qed.

Lemma accumulate_tallied sc u stats l' :
  accumulate sc [] [] = Outcome (Ok u) stats l' ->
  tallied stats (flat_map batting_of (innings_of sc))
                (flat_map bowling_of (innings_of sc)).
Proof.
  unfold accumulate, innings_of, items, field.
  unfold bind at 1. unfold lift at 1.
  destruct (py_get sc "scorecard" (JArr [])) as [v|]; [|discriminate].
  cbn [rbind]. destruct (py_iter v) as [innings|]; [|discriminate].
  intros H.
  apply (for_each_invariant
           (fun s seen => tallied s (flat_map batting_of seen)
                                    (flat_map bowling_of seen))
           innings_step) with (seen := []) in H.
  - apply H.
  - intros x s l u0 s' l0 seen Hi Hx. rewrite !flat_map_app. simpl.
    rewrite !app_nil_r. eapply innings_step_tallied; eauto.
  - apply tallied_empty.
Qed.

(** ** Sorting *)

Lemma insert_desc_In p l x : In x (insert_desc p l) <-> x = p \/ In x l.
Proof.
  induction l as [|q l IH]; simpl.
  - intuition.
  - destruct (score q <=? score p); simpl; [intuition|].
    rewrite IH. intuition.
Qed.

Lemma sort_desc_In l x : In x (sort_desc l) <-> In x l.
Proof.
  induction l as [|p l IH]; simpl; [tauto|].
  rewrite insert_desc_In, IH. intuition.
Qed.

Lemma insert_desc_sorted p l :
  StronglySorted by_score_desc l ->
  StronglySorted by_score_desc (insert_desc p l).
Proof.
  induction 1 as [|q l Hs IH Hq]; simpl.
  - repeat constructor.
  - destruct (Z.leb_spec (score q) (score p)).
    + constructor; [now constructor|].
      constructor; [exact H|].
      eapply Forall_impl; [|exact Hq]. unfold by_score_desc. intros; lia.
    + constructor; [exact IH|].
      apply Forall_forall. intros x Hx. apply insert_desc_In in Hx.
      destruct Hx as [->|Hx].
      * unfold by_score_desc. lia.
      * rewrite Forall_forall in Hq. auto.
Qed.

Lemma sort_desc_sorted l : StronglySorted by_score_desc (sort_desc l).
Proof.
  induction l as [|p l IH]; simpl; [constructor|].
  now apply insert_desc_sorted.
Qed.

Lemma firstn_sorted {A} (R : A -> A -> Prop) n : forall l,
  StronglySorted R l -> StronglySorted R (firstn n l).
Proof.
  induction n as [|n IH]; intros l Hs; simpl; [constructor|].
  destruct l as [|x l]; [constructor|].
  inversion Hs as [|? ? Hl Hx]; subst. constructor; [auto|].
  apply Forall_forall. intros y Hy. apply In_firstn in Hy.
  rewrite Forall_forall in Hx. auto.
Qed.

(** [mark] touches the two flags only. *)
Lemma mark_Forall2 xi :
  Forall2 (fun p p' => name p' = name p /\ runs p' = runs p /\
                       wickets p' = wickets p /\ score p' = score p)
          xi (mark xi).
Proof.
  assert (Hrefl : forall l : list player,
    Forall2 (fun p p' => name p' = name p /\ runs p' = runs p /\
                         wickets p' = wickets p /\ score p' = score p) l l).
  { induction l; constructor; auto. }
  destruct xi as [|c [|v rest]]; simpl; repeat constructor; auto.
Qed.

Lemma Forall2_sorted xs ys :
  Forall2 (fun p p' => score p' = score p) xs ys ->
  StronglySorted by_score_desc xs -> StronglySorted by_score_desc ys.
Proof.
  induction 1 as [|x y xs ys Hxy Hrest IH]; intros Hs; [constructor|].
  inversion Hs as [|? ? Hl Hx]; subst. constructor; [auto|].
  clear IH Hs Hl. induction Hrest as [|x' y' xs ys Hxy' Hrest IH].
  - constructor.
  - inversion Hx; subst. constructor; [|auto].
    unfold by_score_desc in *. lia.
Qed.

Lemma mark_length xi : List.length (mark xi) = List.length xi.
Proof. destruct xi as [|c [|v rest]]; reflexivity. Qed.

(** ** Well-formed scorecards are processed to the end *)

Lemma field_JObj (v : json) k d :
  (exists fs, v = JObj fs) -> py_get v k d = Ok (field v k d).
Proof.
  intros [fs ->]. unfold field, py_get. now destruct (assoc k fs).
Qed.

Lemma entry_ok_batting e :
  entry_ok "batsman" "r" e = true ->
  forall s l, exists s', batting_step e s l = Outcome (Ok tt) s' l.
Proof.
  unfold entry_ok. destruct e as [| | | | |fs]; try discriminate.
  destruct (field (JObj fs) "batsman" (JObj [])) as [| | | | |ws] eqn:Hw;
    try discriminate.
  intros Hok s l. unfold batting_step.
  erewrite bind_ok
    by (unfold lift; rewrite field_JObj by eauto; rewrite Hw; reflexivity).
  assert (Hn : entry_name "batsman" (JObj fs) = field (JObj ws) "name" JNull).
  { unfold entry_name. now rewrite Hw. }
  rewrite Hn in Hok.
  erewrite bind_ok by (unfold lift; rewrite field_JObj by eauto; reflexivity).
  destruct (truthy (field (JObj ws) "name" JNull));
    cbn [negb orb] in Hok; cbn [negb].
  - apply andb_prop in Hok. destruct Hok as [Hh Hi].
    erewrite bind_ok by (rewrite setdefault_run, Hh; reflexivity).
    erewrite bind_ok
      by (unfold lift; rewrite field_JObj by eauto; reflexivity).
    unfold add_runs.
    erewrite bind_ok
      by (rewrite (getitem_run _ _ _ Hh), ensure_get, key_eqb_refl by exact Hh;
          reflexivity).
    destruct (field (JObj fs) "r" (JInt 0)); try discriminate;
      cbv [bind lift int_add get put]; eauto.
  - now exists s.
Qed.

Lemma entry_ok_bowling e :
  entry_ok "bowler" "w" e = true ->
  forall s l, exists s', bowling_step e s l = Outcome (Ok tt) s' l.
Proof.
  unfold entry_ok. destruct e as [| | | | |fs]; try discriminate.
  destruct (field (JObj fs) "bowler" (JObj [])) as [| | | | |ws] eqn:Hw;
    try discriminate.
  intros Hok s l. unfold bowling_step.
  erewrite bind_ok
    by (unfold lift; rewrite field_JObj by eauto; rewrite Hw; reflexivity).
  assert (Hn : entry_name "bowler" (JObj fs) = field (JObj ws) "name" JNull).
  { unfold entry_name. now rewrite Hw. }
  rewrite Hn in Hok.
  erewrite bind_ok by (unfold lift; rewrite field_JObj by eauto; reflexivity).
  destruct (truthy (field (JObj ws) "name" JNull));
    cbn [negb orb] in Hok; cbn [negb].
  - apply andb_prop in Hok. destruct Hok as [Hh Hi].
    erewrite bind_ok by (rewrite setdefault_run, Hh; reflexivity).
    erewrite bind_ok
      by (unfold lift; rewrite field_JObj by eauto; reflexivity).
    unfold add_wickets.
    erewrite bind_ok
      by (rewrite (getitem_run _ _ _ Hh), ensure_get, key_eqb_refl by exact Hh;
          reflexivity).
    destruct (field (JObj fs) "w" (JInt 0)); try discriminate;
      cbv [bind lift int_add get put]; eauto.
  - now exists s.
Qed.

Lemma innings_ok_step inn :
  innings_ok inn = true ->
  forall s l, exists s', innings_step inn s l = Outcome (Ok tt) s' l.
Proof.
  unfold innings_ok. destruct inn as [| | | | |fs]; try discriminate.
  intros Hok s l. apply andb_prop in Hok. destruct Hok as [Hb Hw].
  unfold list_ok in Hb, Hw.
  destruct (field (JObj fs) "batting" (JArr [])) as [| | | |bs|] eqn:Eb;
    try discriminate.
  destruct (field (JObj fs) "bowling" (JArr [])) as [| | | |ws|] eqn:Ew;
    try discriminate.
  rewrite forallb_forall in Hb, Hw.
  unfold innings_step.
  erewrite bind_ok
    by (unfold lift; rewrite field_JObj by eauto; rewrite Eb; reflexivity).
  destruct (for_each_total batting_step bs
              (fun x Hx => entry_ok_batting x (Hb x Hx)) s l) as [s1 H1].
  erewrite bind_ok by exact H1.
  erewrite bind_ok
    by (unfold lift; rewrite field_JObj by eauto; rewrite Ew; reflexivity).
  exact (for_each_total bowling_step ws
           (fun x Hx => entry_ok_bowling x (Hw x Hx)) s1 l).
Qed.

Lemma scorecard_ok_accumulate sc :
  scorecard_ok sc = true ->
  forall s l, exists s', accumulate sc s l = Outcome (Ok tt) s' l.
Proof.
  unfold scorecard_ok. destruct sc as [| | | | |fs]; try discriminate.
  unfold list_ok.
  destruct (field (JObj fs) "scorecard" (JArr [])) as [| | | |inns|] eqn:E;
    try discriminate.
  intros Hok s l. rewrite forallb_forall in Hok. unfold accumulate.
  erewrite bind_ok
    by (unfold lift; rewrite field_JObj by eauto; rewrite E; reflexivity).
  exact (for_each_total innings_step inns
           (fun x Hx => innings_ok_step x (Hok x Hx)) s l).
Qed.

End Selection.
Section SelectionProperties.
Import App.

Lemma Forall2_transfer {A} (R : A -> A -> Prop) (P Q : A -> Prop) xs ys :
  (forall x y, R x y -> P x -> Q y) ->
  Forall2 R xs ys -> Forall P xs -> Forall Q ys.
Proof.
  intros HR. induction 1 as [|x y xs ys Hxy Hrest IH]; intros HP.
  - constructor.
  - inversion HP; subst. constructor; eauto.
Qed.

Lemma select_fantasy_xi_inv sc xi :
  select_fantasy_xi sc = Ok xi ->
  exists stats,
    tallied stats (flat_map batting_of (innings_of sc))
                  (flat_map bowling_of (innings_of sc)) /\
    xi = mark (firstn 11 (sort_desc (map player_of stats))).
Proof.
  unfold select_fantasy_xi.
  destruct (accumulate sc [] []) as [[u|e] stats l'] eqn:Ha; simpl;
    [|discriminate].
  intros H. injection H as <-. exists stats. split; [|reflexivity].
  eapply accumulate_tallied; eauto.
Qed.

(** C9. On a scorecard of the expected shape [select_fantasy_xi] returns,
    and whatever it returns has at most 11 players, each with the runs and
    wickets accumulated under that name over all innings and with score
    runs + 20 * wickets, in non-increasing order of score; the first player,
    if any, is marked captain and the second, if any, vice-captain. *)
Theorem select_fantasy_xi_spec sc :
  (scorecard_ok sc = true -> exists xi, select_fantasy_xi sc = Ok xi) /\
  (forall xi, select_fantasy_xi sc = Ok xi ->
     (List.length xi <= 11)%nat /\
     Forall (fun p => runs p = total_runs sc (name p) /\
                      wickets p = total_wickets sc (name p) /\
                      score p = runs p + 20 * wickets p) xi /\
     StronglySorted (fun p q => score q <= score p) xi /\
     (forall c rest, xi = c :: rest -> captain c = true) /\
     (forall c v rest, xi = c :: v :: rest -> vice_captain v = true)).
Proof.
  split.
  - intros Hok. unfold select_fantasy_xi.
    destruct (scorecard_ok_accumulate sc Hok [] []) as [s' ->]. simpl. eauto.
  - intros xi H. apply select_fantasy_xi_inv in H.
    destruct H as [stats [[Hd [Hk Hs]] ->]].
    set (xi0 := firstn 11 (sort_desc (map player_of stats))).
    split; [|split; [|split; [|split]]].
    + rewrite mark_length. apply firstn_le_length.
    + eapply Forall2_transfer; [|apply mark_Forall2|].
      * intros p p' [Hn [Hr [Hw Hsc]]] HP. rewrite Hn, Hr, Hw, Hsc. exact HP.
      * apply Forall_forall. intros p Hp. unfold xi0 in Hp.
        apply In_firstn in Hp. rewrite sort_desc_In in Hp.
        apply in_map_iff in Hp. destruct Hp as [[k t] [<- Hin]].
        pose proof (distinct_found stats k t Hd Hin) as Hg.
        destruct (Hs k (Hk k t Hg)) as [Hr Hw].
        unfold tally_of in Hr, Hw. rewrite Hg in Hr, Hw.
        unfold total_runs, total_wickets, player_of; cbn [name runs wickets score fst snd].
        rewrite <- Hr, <- Hw. repeat split. lia.
    + apply (Forall2_sorted xi0).
      * eapply Forall2_impl; [|apply mark_Forall2]. simpl. tauto.
      * apply firstn_sorted, sort_desc_sorted.
    + intros c rest. destruct xi0 as [|c0 [|v0 rest0]]; simpl;
        intros H; try discriminate; now injection H as <-.
    + intros c v rest. destruct xi0 as [|c0 [|v0 rest0]]; simpl;
        intros H; try discriminate. injection H as _ <- _. reflexivity.
Qed.

End SelectionProperties.

(* ===================================================================== *)
(** * The specification at concrete inputs *)
(* ===================================================================== *)

Section Concrete.
Import Example Retriever.
Local Open Scope string_scope.
#[local] Existing Instance toy.

(** C1. A corpus of one passage queried with the default [top_k = 3]:
    the search row is padded to three labels, none is filtered out, and
    [retrieve] returns three strings, more than the corpus holds. *)
Theorem retrieve_exceeds_corpus :
  @construct toy one_file players_path conditions_path faqs_path
    = (Ok single, single_log) /\
  List.length (documents single) = 1%nat /\
  value (@retrieve toy "Who should I pick?" 3 single [])
    = Ok [text_A; text_A; text_A].
Proof. repeat split. Qed.

(** C2. On the same corpus the search for two neighbours answers with the
    labels 0 and -1; -1 is no position of the corpus, yet it passes the
    test [i < len(self.documents)] and is read as [documents[-1]]. *)
Theorem filler_label_is_kept :
  rbind (@Faiss.search toy (index single) [@embed toy "captain"] 2)
        (fun found => Ok (snd found)) = Ok [[0; -1]] /\
  ~ valid_label (List.length (documents single)) (-1) /\
  @select_documents (documents single) [0; -1] = Ok [text_A; text_A] /\
  value (@retrieve toy "captain" 2 single []) = Ok [text_A; text_A].
Proof.
  repeat split. unfold valid_label. simpl. lia.
Qed.

(** C3 fails as stated: a query of three spaces is blank, and it is
    embedded and searched like any other query. *)
Lemma blank_query_is_searched :
  ~ (forall (B : Backend) fs p m f (r : @Retriever B) evs q k l,
       construct fs p m f = (Ok r, evs) ->
       blank q = true ->
       retrieve q k r l = Outcome (Ok []) r l).
Proof.
  intros H.
  specialize (H toy files players_path conditions_path faqs_path small
                small_log "   " 1 [] eq_refl eq_refl).
  vm_compute in H. discriminate H.
Qed.

Lemma retrieve_empty_query_witness :
  "   " <> EmptyString /\
  exists v, @retrieve toy "   " 1 small [] =
            Outcome v small [ModelEncode ["   "]; IndexSearch 1].
Proof.
  split; [discriminate|].
  exact (proj2 (@retrieve_empty_query toy small 1 []) "   "
           ltac:(discriminate)).
Defined.

Lemma empty_corpus_is_fatal_witness :
  corpus (loaded empty_files players_path) (loaded empty_files conditions_path)
         (faq_source empty_files faqs_path) = Ok [] /\
  fst (@construct toy empty_files players_path conditions_path faqs_path)
    = Raise (ValueError "No documents found for retrieval.").
Proof.
  split.
  - reflexivity.
  - apply (@empty_corpus_is_fatal toy). reflexivity.
Defined.

Lemma alignment_invariant_witness :
  List.length (doc_embeddings small) = List.length (documents small) /\
  (forall i d, nth_error (documents small) i = Some d ->
               nth_error (doc_embeddings small) i = Some (@embed toy d)) /\
  Faiss.xb (index small) = doc_embeddings small /\
  (forall q k l, state (retrieve q k small l) = small).
Proof.
  exact (@alignment_invariant toy files players_path conditions_path
           faqs_path small small_log eq_refl).
Defined.

Lemma corpus_order_witness :
  exists players ptexts ctexts records ftexts,
    py_iter (loaded files players_path) = Ok players /\
    Forall2 (fun rec t => @player_text toy rec = Ok t) players ptexts /\
    (truthy (loaded files conditions_path) = true ->
     exists t, @cond_text toy (loaded files conditions_path) = Ok t /\
               ctexts = [t]) /\
    (truthy (loaded files conditions_path) = false -> ctexts = []) /\
    py_iter (faq_source files faqs_path) = Ok records /\
    Forall2 (fun rec ts =>
               exists q a, faq_field rec "question" = Some q /\
                           faq_field rec "answer" = Some a /\
                           ts = faq_contribution q a) records ftexts /\
    documents small = (ptexts ++ ctexts ++ List.concat ftexts)%list.
Proof.
  exact (@corpus_order toy files players_path conditions_path faqs_path
           small small_log eq_refl).
Defined.



Lemma malformed_source_resilience_witness :
  files conditions_path = Raise JSONDecodeError /\
  exists r evs,
    @construct toy files players_path conditions_path faqs_path = (Ok r, evs)
    /\ documents r = [text_A; text_B; text_faq]
    /\ match_conditions r = JArr []
    /\ In (PrintLoadError conditions_path) evs.
Proof.
  split; [reflexivity|].
  destruct (@malformed_source_resilience toy files players_path
              conditions_path faqs_path [text_A; text_B; text_faq]
              eq_refl ltac:(discriminate))
    as [r [evs [Hc [Hd [_ [Hm _]]]]]].
  exists r, evs. destruct (Hm JSONDecodeError eq_refl) as [Hmc Hw]. auto.
Defined.

Lemma select_fantasy_xi_spec_witness :
  scorecard_ok scorecard = true /\
  App.select_fantasy_xi scorecard = Ok fantasy_xi /\
  (List.length fantasy_xi <= 11)%nat /\
  Forall (fun p => App.runs p = total_runs scorecard (App.name p) /\
                   App.wickets p = total_wickets scorecard (App.name p) /\
                   App.score p = (App.runs p + 20 * App.wickets p)%Z)
         fantasy_xi /\
  StronglySorted (fun p q => (App.score q <= App.score p)%Z) fantasy_xi.
Proof.
  split; [reflexivity|]. split; [reflexivity|].
  destruct (proj2 (select_fantasy_xi_spec scorecard) fantasy_xi eq_refl)
    as [Hlen [Htot [Hsorted _]]].
  auto.
Defined.

Lemma get_live_match_data_never_raises_witness :
  LiveData.call no_env unreachable = Ok [] /\
  LiveData.call no_env not_found = Ok [] /\
  LiveData.call no_env garbled = Ok [] /\
  LiveData.call no_env refused = Ok [].
Proof.
  split; [|split; [|split]].
  - destruct (get_live_match_data_never_raises no_env unreachable)
      as [_ [_ [H _]]].
    exact (H RequestException eq_refl).
  - destruct (get_live_match_data_never_raises no_env not_found)
      as [_ [_ [_ [H _]]]].
    refine (H _ eq_refl _). simpl. lia.
  - destruct (get_live_match_data_never_raises no_env garbled)
      as [_ [_ [_ [_ [H _]]]]].
    exact (H _ JSONDecodeError eq_refl eq_refl).
  - destruct (get_live_match_data_never_raises no_env refused)
      as [_ [_ [_ [_ [_ H]]]]].
    refine (H _ _ (JStr "failure") eq_refl eq_refl eq_refl _). discriminate.
Defined.

End Concrete.

(* ===================================================================== *)
(** * Further properties of the retrieval engine *)
(* ===================================================================== *)

Import PyStr More.

Section RetrieverMore.
Context {B : Backend}.
Import Retriever.

(** X1. A successful construction prints one warning per unreadable source
    (players, conditions, FAQs, in this order), then calls the embedding
    model exactly once, on the whole corpus, and adds as many vectors as
    there are passages to the index; the loaded records are kept on the
    object as they were read. *)
Theorem construction_log fs p m f r evs :
  construct fs p m f = (Ok r, evs) ->
  evs = load_warning fs p ++ load_warning fs m ++ faq_warning fs f
        ++ [ModelEncode (documents r); IndexAdd (List.length (documents r))]
  /\ player_stats r = loaded fs p
  /\ match_conditions r = loaded fs m
  /\ faqs r = faq_source fs f.
Proof.
  intros H. apply construct_ok in H.
  destruct H as [d [ds [_ [-> ->]]]].
  cbn [instance documents player_stats match_conditions faqs].
  rewrite <- !app_assoc. auto.
Qed.



(** X3. Without a FAQ path, or with an empty one, no FAQ file is read: the
    result is the same in both cases, it does not depend on what any file
    but the two named ones holds, and the [faqs] attribute is the empty
    list. *)
Theorem no_faq_path_reads_no_file fs fs' p m :
  fs p = fs' p -> fs m = fs' m ->
  construct fs p m (Some EmptyString) = construct fs p m None /\
  construct fs p m None = construct fs' p m None /\
  (forall r evs, construct fs p m None = (Ok r, evs) -> faqs r = JArr []).
Proof.
  intros Hp Hm. split; [|split].
  - rewrite !construct_run. reflexivity.
  - rewrite !construct_run. cbv zeta.
    unfold loaded, load_warning, faq_source, faq_warning.
    now rewrite Hp, Hm.
  - intros r evs H. apply construct_ok in H.
    destruct H as [d [ds [_ [-> _]]]]. reflexivity.
Qed.

Lemma traverse_raises {X Y} (f : X -> result Y) xs x e :
  In x xs -> f x = Raise e ->
  (forall y e', f y = Raise e' -> e' = e) ->
  traverse f xs = Raise e.
Proof.
  intros Hin Hx Hall. induction xs as [|y xs IH]; [contradiction|]. simpl.
  destruct (f y) as [v|e'] eqn:Hy; simpl.
  - destruct Hin as [->|Hin]; [congruence|].
    now rewrite (IH Hin).
  - now rewrite (Hall y e' Hy).
Qed.

Lemma player_text_raises v e :
  player_text v = Raise e -> e = AttributeError.
Proof.
  unfold player_text, py_get. destruct v; simpl; try congruence.
  repeat match goal with
         | |- context [assoc ?k ?fs] => destruct (assoc k fs); simpl
         end; discriminate.
Qed.

(** X4. A player-stats file whose top level is a non-empty object, not a
    list, is not absorbed like an unreadable one: the loop runs over the
    keys, and construction fails with [AttributeError]. *)
Theorem player_stats_object_is_fatal fs p m f kv rest :
  fs p = Ok (JObj (kv :: rest)) ->
  fst (construct fs p m f) = Raise AttributeError.
Proof.
  intros Hp. rewrite construct_run. cbv zeta.
  unfold corpus, loaded at 1. rewrite Hp. cbn [py_iter rbind map].
  rewrite (traverse_raises player_text _ (JStr (fst kv)) AttributeError).
  - reflexivity.
  - now left.
  - reflexivity.
  - intros y e'. apply player_text_raises.
Qed.

(** X5. A match-conditions file that holds anything non-empty other than
    an object (a list of records, say) makes construction fail with
    [AttributeError], once the player records have been processed. *)
Theorem match_conditions_shape_is_fatal fs p m f pp :
  rbind (py_iter (loaded fs p)) (traverse player_text) = Ok pp ->
  truthy (loaded fs m) = true ->
  is_object (loaded fs m) = false ->
  fst (construct fs p m f) = Raise AttributeError.
Proof.
  intros Hp Ht Ho. rewrite construct_run. cbv zeta.
  unfold corpus. rewrite Hp. cbn [rbind].
  unfold cond_passages. rewrite Ht.
  unfold cond_text, py_get.
  destruct (loaded fs m); try discriminate; reflexivity.
Qed.

Lemma selection_rows docs row :
  Forall (fun i => 0 <= i < Z.of_nat (List.length docs)) row ->
  exists ds,
    select_documents docs row = Ok ds /\
    Forall2 (fun i d => in_range (List.length docs) i /\
                        nth_error docs (Z.to_nat i) = Some d) row ds.
Proof.
  induction 1 as [|i row Hi Hrow IH].
  - exists []. split; [reflexivity | constructor].
  - destruct IH as [ds [Hds Hall]]. simpl.
    destruct (Z.ltb_spec i (Z.of_nat (List.length docs))); [|lia].
    destruct (list_getitem_valid docs i Hi) as [d [Hd Hn]].
    rewrite Hd, Hds. simpl. exists (d :: ds). split; [reflexivity|].
    constructor; [split; [exact Hi | exact Hn] | exact Hall].
Qed.

(** X6. Labels that are positions of the corpus are answered with the
    passages at these positions, one per label and in the order of the
    labels. *)
Theorem selection_follows_labels docs row :
  Forall (in_range (List.length docs)) row ->
  exists ds,
    select_documents docs row = Ok ds /\
    Forall2 (fun i d => nth_error docs (Z.to_nat i) = Some d) row ds.
Proof.
  intros H. destruct (selection_rows docs row H) as [ds [Hds Hall]].
  exists ds. split; [exact Hds|].
  eapply Forall2_impl; [|exact Hall]. simpl. tauto.
Qed.

(** X7. A label at or beyond the length of the corpus never contributes
    and never faults: the answer is that of the row without such labels. *)
Theorem labels_beyond_corpus_are_dropped docs row :
  select_documents docs row =
  select_documents docs
    (filter (fun i => i <? Z.of_nat (List.length docs)) row).
Proof.
  induction row as [|i row IH]; simpl; [reflexivity|].
  destruct (i <? Z.of_nat (List.length docs)) eqn:E; simpl.
  - rewrite E. now rewrite IH.
  - exact IH.
Qed.

Lemma list_getitem_raises {A} (xs : list A) i e :
  list_getitem xs i = Raise e -> e = IndexError.
Proof.
  unfold list_getitem.
  destruct ((_ <? 0) || (_ <=? _)); [congruence|].
  destruct (nth_error xs _); congruence.
Qed.

Lemma select_documents_raises docs row e :
  select_documents docs row = Raise e -> e = IndexError.
Proof.
  induction row as [|i row IH]; simpl; [discriminate|].
  destruct (i <? Z.of_nat (List.length docs)); [|exact IH].
  destruct (list_getitem docs i) as [d|e'] eqn:Hd; simpl.
  - destruct (select_documents docs row) as [ds|e'']; simpl;
      [discriminate|]. intros H. injection H as <-. now apply IH.
  - intros H. injection H as <-. now apply list_getitem_raises in Hd.
Qed.

(** X8. The test [i < len(self.documents)] does not guard the lower end: a
    row holding a label below [-len] makes the comprehension raise
    [IndexError]. *)
Theorem label_below_minus_len_faults docs row i :
  In i row -> i < - Z.of_nat (List.length docs) ->
  select_documents docs row = Raise IndexError.
Proof.
  intros Hin Hi. induction row as [|j row IH]; [contradiction|]. simpl.
  destruct Hin as [->|Hin].
  - destruct (Z.ltb_spec i (Z.of_nat (List.length docs))); [|lia].
    unfold list_getitem.
    destruct (Z.ltb_spec i 0); [|lia].
    destruct (Z.ltb_spec (Z.of_nat (List.length docs) + i) 0); [|lia].
    reflexivity.
  - specialize (IH Hin).
    destruct (j <? Z.of_nat (List.length docs)); [|exact IH].
    destruct (list_getitem docs j) as [d|e] eqn:Hd; simpl.
    + now rewrite IH.
    + now apply list_getitem_raises in Hd; subst.
Qed.

End RetrieverMore.

Section SearchMore.
Context {B : Backend}.
Import Faiss Retriever.

Lemma insert_ranked_perm x l : Permutation (insert_ranked x l) (x :: l).
Proof.
  induction l as [|y l IH]; simpl; [reflexivity|].
  destruct (dist_ltb (fst x) (fst y)); [reflexivity|].
  rewrite IH. apply perm_swap.
Qed.

Lemma rank_from_perm q vs : forall i acc,
  Permutation (map snd (rank_from q i vs acc))
    (map snd acc ++ map (fun j => i + Z.of_nat j) (seq 0 (List.length vs))).
Proof.
  induction vs as [|v vs IH]; intros i acc; simpl.
  - now rewrite app_nil_r.
  - rewrite IH. rewrite (Permutation_map snd (insert_ranked_perm _ acc)).
    simpl. rewrite Z.add_0_r. rewrite <- seq_shift, map_map.
    rewrite (Permutation_middle (map snd acc)). apply Permutation_app_head.
    constructor. apply Permutation_refl'. apply map_ext. intros j. lia.
Qed.

Lemma NoDup_map_injective {A C} (f : A -> C) l :
  (forall a b, f a = f b -> a = b) -> NoDup l -> NoDup (map f l).
Proof.
  intros Hf. induction 1 as [|a l Ha Hl IH]; simpl; constructor; auto.
  intros Hin. apply in_map_iff in Hin. destruct Hin as [b [Hb Hin]].
  apply Hf in Hb. now subst.
Qed.

Lemma rank_from_NoDup q vs :
  NoDup (map snd (rank_from q 0 vs [])).
Proof.
  eapply Permutation_NoDup.
  - symmetry. apply rank_from_perm.
  - simpl. apply NoDup_map_injective; [|apply seq_NoDup].
    intros a b. lia.
Qed.

Lemma NoDup_firstn {A} n (l : list A) : NoDup l -> NoDup (firstn n l).
Proof.
  intros H. rewrite <- (firstn_skipn n l) in H.
  now apply NoDup_app_remove_r in H.
Qed.

(** Asked for no more neighbours than there are vectors, a row holds [k]
    pairwise different positions and no filler. *)
Lemma search_row_full idx k q :
  0 <= k <= ntotal idx ->
  let row := snd (search_row idx k q) in
  List.length row = Z.to_nat k /\ NoDup row /\
  Forall (fun i => 0 <= i < ntotal idx) row.
Proof.
  intros Hk. unfold search_row; cbn [snd].
  set (ranked := rank_from q 0 (xb idx) []).
  assert (Hlen : List.length (firstn (Z.to_nat k) ranked) = Z.to_nat k).
  { apply firstn_length_le. unfold ranked. rewrite rank_from_length.
    unfold ntotal in Hk. simpl. lia. }
  rewrite Hlen, Nat.sub_diag. simpl repeat. rewrite app_nil_r.
  split; [|split].
  - now rewrite length_map.
  - rewrite <- firstn_map. apply NoDup_firstn, rank_from_NoDup.
  - apply Forall_forall. intros i Hi. apply in_map_iff in Hi.
    destruct Hi as [c [<- Hc]]. apply In_firstn in Hc.
    apply rank_from_labels in Hc. destruct Hc as [[]|Hc].
    unfold ntotal. lia.
Qed.

(** X9. For a non-empty query and [0 < top_k <= len(corpus)], [retrieve] on
    a constructed retriever returns exactly [top_k] passages, read at
    [top_k] pairwise different positions of the corpus, after one call to
    the model and one search. *)
Theorem retrieve_within_corpus ps mc fq d ds q k l :
  q <> EmptyString ->
  0 < k <= Z.of_nat (List.length (d :: ds)) ->
  exists labels out,
    retrieve q k (instance ps mc fq (d :: ds)) l =
    Outcome (Ok out) (instance ps mc fq (d :: ds))
      (l ++ [ModelEncode [q]; IndexSearch k]) /\
    List.length out = Z.to_nat k /\
    NoDup labels /\
    Forall2 (fun i t => in_range (List.length (d :: ds)) i /\
                        nth_error (d :: ds) (Z.to_nat i) = Some t)
            labels out.
Proof.
  intros Hq Hk. unfold retrieve.
  destruct (String.eqb_spec q ""); [contradiction|].
  set (self := instance ps mc fq (d :: ds)).
  assert (Hn : ntotal (index self) = Z.of_nat (List.length (d :: ds))).
  { unfold ntotal, self. cbn [index instance xb]. now rewrite length_map. }
  destruct (search_row_full (index self) k (embed q)) as [Hlen [Hnd Hall]];
    [lia|].
  rewrite Hn in Hall.
  destruct (selection_rows (d :: ds) _ Hall) as [out [Hout Hf2]].
  exists (snd (search_row (index self) k (embed q))), out.
  split; [|split; [|split]]; auto.
  - cbv [bind model_encode emit ret get lift search].
    destruct (Z.leb_spec k 0); [lia|].
    cbn [map snd fst]. unfold list_getitem; cbn [List.length nth_error Z.to_nat].
    cbn. change (documents self) with (d :: ds).
    cbn in Hout. rewrite Hout. now rewrite <- app_assoc.
  - apply Forall2_length in Hf2. lia.
Qed.

End SearchMore.

(* ===================================================================== *)
(** * Further properties of the live-match feed *)
(* ===================================================================== *)

Section FeedMore.
Import LiveData.

(** The loop of live_data.py:22-32 in terms of [traverse]. *)
Lemma matches_loop items : forall (seen : list match_info) l,
  match traverse match_info_of items with
  | Ok infos =>
      for_each items (fun m => mi <- lift (match_info_of m) ;;
                               matches_append mi)%py seen l
      = Outcome (Ok tt) (seen ++ infos) l
  | Raise e =>
      exists seen',
        for_each items (fun m => mi <- lift (match_info_of m) ;;
                                 matches_append mi)%py seen l
        = Outcome (Raise e) seen' l
  end.
Proof.
  induction items as [|m items IH]; intros seen l; simpl.
  - unfold ret. now rewrite app_nil_r.
  - cbv [bind lift matches_append get put].
    destruct (match_info_of m) as [mi|e]; simpl; [|eauto].
    specialize (IH (seen ++ [mi]) l).
    destruct (traverse match_info_of items) as [infos|e]; simpl.
    + cbv [bind lift matches_append get put] in IH. rewrite IH.
      now rewrite <- app_assoc.
    + exact IH.
Qed.

(** The [try] block once the request has been answered with a body that
    says "success". *)
Lemma try_body_success net params r data items s l :
  net url params = Ok r ->
  raise_for_status r = Ok tt ->
  body r = Ok data ->
  py_get data "status" JNull = Ok (JStr "success") ->
  rbind (py_get data "data" (JArr [])) py_iter = Ok items ->
  value (try_body net params s l) =
  traverse match_info_of items.
Proof.
  intros Hn Hr Hb Hs Hi. unfold try_body.
  cbv [bind emit lift]. rewrite Hn, Hr, Hb, Hs. cbn [eq_str negb].
  rewrite String.eqb_refl. cbn [negb put]. rewrite Hi.
  pose proof (matches_loop items [] (l ++ [HttpGet url])) as H.
  cbv [bind lift] in H.
  destruct (traverse match_info_of items) as [infos|e].
  - rewrite H. reflexivity.
  - destruct H as [seen' ->]. reflexivity.
Qed.

(** X10. When the request is answered without an HTTP error, the body is an
    object with status "success", and every item under "data" can be read,
    the feed is one record per item, in the order of the items. *)
Theorem feed_lists_every_match getenv net r data items infos :
  net url (request_params getenv) = Ok r ->
  raise_for_status r = Ok tt ->
  body r = Ok data ->
  py_get data "status" JNull = Ok (JStr "success") ->
  rbind (py_get data "data" (JArr [])) py_iter = Ok items ->
  Forall2 (fun m mi => match_info_of m = Ok mi) items infos ->
  call getenv net = Ok infos.
Proof.
  intros Hn Hr Hb Hs Hi Hall. apply traverse_Forall2 in Hall.
  unfold call.
  pose proof (get_live_match_data_cases getenv net [] []) as C.
  rewrite (try_body_success _ _ _ _ _ _ _ Hn Hr Hb Hs Hi), Hall in C.
  exact C.
Qed.

Lemma traverse_some_raise {X Y} (f : X -> result Y) xs x e :
  In x xs -> f x = Raise e -> exists e', traverse f xs = Raise e'.
Proof.
  intros Hin Hx. induction xs as [|y xs IH]; [contradiction|]. simpl.
  destruct (f y) as [v|e'] eqn:Hy; simpl; [|eauto].
  destruct Hin as [->|Hin]; [congruence|].
  destruct (IH Hin) as [e'' ->]. simpl. eauto.
Qed.

(** X11. The feed is all or nothing: if a single item under "data" cannot
    be read, the answer is the empty list, whatever the other items
    hold. *)
Theorem one_bad_match_empties_the_feed getenv net r data items m e :
  net url (request_params getenv) = Ok r ->
  raise_for_status r = Ok tt ->
  body r = Ok data ->
  py_get data "status" JNull = Ok (JStr "success") ->
  rbind (py_get data "data" (JArr [])) py_iter = Ok items ->
  In m items -> match_info_of m = Raise e ->
  call getenv net = Ok [].
Proof.
  intros Hn Hr Hb Hs Hi Hin Hm.
  destruct (traverse_some_raise match_info_of items m e Hin Hm) as [e' He'].
  unfold call.
  pose proof (get_live_match_data_cases getenv net [] []) as C.
  rewrite (try_body_success _ _ _ _ _ _ _ Hn Hr Hb Hs Hi), He' in C.
  exact C.
Qed.

(** X12. The team names of a match record: without a "teamInfo" key both
    are "N/A"; with a list of one object the second is "N/A"; with an empty
    list the record cannot be built ([IndexError]), the default applying
    only when the key is missing. *)
Theorem team_names_of_a_match fields :
  (assoc "teamInfo" fields = None ->
   exists mi, match_info_of (JObj fields) = Ok mi /\
              team1 mi = NA /\ team2 mi = NA) /\
  (forall t, assoc "teamInfo" fields = Some (JArr [JObj t]) ->
   exists mi, match_info_of (JObj fields) = Ok mi /\
              team1 mi = field (JObj t) "name" NA /\ team2 mi = NA) /\
  (assoc "teamInfo" fields = Some (JArr []) ->
   match_info_of (JObj fields) = Raise IndexError).
Proof.
  split; [|split].
  - intros H. unfold match_info_of, py_get. rewrite H. cbn.
    repeat match goal with
           | |- context [assoc ?k fields] => destruct (assoc k fields); cbn
           end; eexists; repeat split.
  - intros t H. unfold match_info_of. unfold py_get at 1. rewrite H.
    cbn [rbind py_getitem]. unfold list_getitem at 1. cbn.
    unfold field, py_get.
    destruct (assoc "name" t); cbn; rewrite H; cbn;
    repeat match goal with
           | |- context [assoc ?k fields] => destruct (assoc k fields); cbn
           end; eexists; repeat split.
  - intros H. unfold match_info_of, py_get. rewrite H. reflexivity.
Qed.

End FeedMore.

(* ===================================================================== *)
(** * Scheduled matches, the sidebar lists and today's matches *)
(* ===================================================================== *)

Section Comprehensions.
Context {A : Type}.

Lemma comprehension_filter (keep : A -> result bool) (p : A -> bool) xs :
  Forall (fun x => keep x = Ok (p x)) xs ->
  comprehension keep xs = Ok (filter p xs).
Proof.
  induction 1 as [|x xs Hx Hxs IH]; simpl; [reflexivity|].
  rewrite Hx, IH. simpl. now destruct (p x).
Qed.

Lemma comprehension_raises (keep : A -> result bool) xs x e :
  In x xs -> keep x = Raise e ->
  (forall y e', keep y = Raise e' -> e' = e) ->
  comprehension keep xs = Raise e.
Proof.
  intros Hin Hx Hall. induction xs as [|y xs IH]; [contradiction|]. simpl.
  destruct (keep y) as [b|e'] eqn:Hy; simpl.
  - destruct Hin as [->|Hin]; [congruence|]. now rewrite (IH Hin).
  - now rewrite (Hall y e' Hy).
Qed.

Lemma comprehension_raise_inv (keep : A -> result bool) xs e :
  comprehension keep xs = Raise e ->
  exists x, In x xs /\ keep x = Raise e.
Proof.
  induction xs as [|y xs IH]; simpl; [discriminate|].
  destruct (keep y) as [b|e'] eqn:Hy; simpl.
  - destruct (comprehension keep xs) as [ys|e'']; simpl; [discriminate|].
    intros H. injection H as <-. destruct (IH eq_refl) as [x [Hin Hx]].
    exists x. auto.
  - intros H. injection H as <-. exists y. auto.
Qed.

Lemma filter_partition (p : A -> bool) xs :
  Permutation (filter (fun x => negb (p x)) xs ++ filter p xs) xs.
Proof.
  induction xs as [|x xs IH]; simpl; [constructor|].
  destruct (p x); simpl.
  - rewrite <- Permutation_middle. now constructor.
  - now constructor.
Qed.

End Comprehensions.

Section ScheduleMore.
Import LiveData Schedule Page.

Lemma str_in_rotate s a b c :
  str_in s [a; b; c] = str_in s [b; c; a].
Proof.
  unfold str_in. simpl.
  destruct (s =? a)%string, (s =? b)%string, (s =? c)%string; reflexivity.
Qed.

Lemma is_scheduled_upcoming m : is_scheduled m = is_upcoming m.
Proof.
  unfold is_scheduled, is_upcoming.
  destruct (py_lower (status m)); cbn [rbind]; [|reflexivity].
  now rewrite str_in_rotate.
Qed.

Lemma is_upcoming_text m :
  is_text (status m) = true -> is_upcoming m = Ok (not_begun m).
Proof.
  unfold is_upcoming, not_begun. destruct (status m); try discriminate.
  reflexivity.
Qed.

Lemma is_live_text m :
  is_text (status m) = true -> is_live m = Ok (negb (not_begun m)).
Proof.
  unfold is_live, not_begun. destruct (status m); try discriminate.
  reflexivity.
Qed.

Lemma is_upcoming_not_text m :
  is_text (status m) = false -> is_upcoming m = Raise AttributeError.
Proof.
  unfold is_upcoming. destruct (status m); try discriminate; reflexivity.
Qed.

Lemma is_upcoming_raises m e :
  is_upcoming m = Raise e -> e = AttributeError /\ is_text (status m) = false.
Proof.
  unfold is_upcoming. destruct (status m); simpl; try discriminate;
    intros H; injection H as <-; auto.
Qed.

Lemma call_returns getenv net : exists all, call getenv net = Ok all.
Proof.
  unfold call.
  pose proof (get_live_match_data_cases getenv net [] []) as C.
  destruct (value (try_body net (request_params getenv) [] [])); eauto.
Qed.

(** X13. When every match of the feed has a text status,
    [get_scheduled_matches] returns, in feed order, exactly the matches
    whose status is "not started", "scheduled" or "upcoming" in any
    letter case. *)
Theorem scheduled_matches_are_the_not_begun getenv net all :
  call getenv net = Ok all ->
  Forall (fun m => is_text (status m) = true) all ->
  get_scheduled_matches getenv net = Ok (filter not_begun all).
Proof.
  intros Hc Hall. unfold get_scheduled_matches. rewrite Hc. simpl.
  apply comprehension_filter.
  eapply Forall_impl; [|exact Hall]. intros m Hm.
  rewrite is_scheduled_upcoming. now apply is_upcoming_text.
Qed.

(** X14. Unlike the feed it filters, [get_scheduled_matches] can raise:
    it raises exactly when some match of the feed has a status that is not
    a text (a JSON null, say), and then it is [AttributeError]. *)
Theorem scheduled_matches_raise_on_non_text_status getenv net e :
  get_scheduled_matches getenv net = Raise e <->
  e = AttributeError /\
  exists all m, call getenv net = Ok all /\ In m all /\
                is_text (status m) = false.
Proof.
  unfold get_scheduled_matches.
  destruct (call_returns getenv net) as [all Hc]. rewrite Hc. simpl. split.
  - intros H. apply comprehension_raise_inv in H.
    destruct H as [m [Hin Hm]]. rewrite is_scheduled_upcoming in Hm.
    apply is_upcoming_raises in Hm. destruct Hm as [-> Ht].
    split; [reflexivity|]. now exists all, m.
  - intros [-> [all' [m [Hc' [Hin Ht]]]]].
    assert (all' = all) by congruence. subst all'.
    apply (comprehension_raises _ _ m); auto.
    + rewrite is_scheduled_upcoming. now apply is_upcoming_not_text.
    + intros y e' Hy. rewrite is_scheduled_upcoming in Hy.
      now apply is_upcoming_raises in Hy.
Qed.

(** X15. The two sidebar lists split the feed: when every status is a
    text, both comprehensions return, each match lands in exactly one of
    them, "Upcoming" holding the matches that have not begun and "Live" all
    the others. *)
Theorem sidebar_lists_split_the_feed all :
  Forall (fun m => is_text (status m) = true) all ->
  exists live upcoming,
    live_matches all = Ok live /\
    upcoming_matches all = Ok upcoming /\
    Permutation (live ++ upcoming) all /\
    Forall (fun m => not_begun m = false) live /\
    Forall (fun m => not_begun m = true) upcoming.
Proof.
  intros Hall.
  exists (filter (fun m => negb (not_begun m)) all), (filter not_begun all).
  split; [|split; [|split; [|split]]].
  - apply comprehension_filter. eapply Forall_impl; [|exact Hall].
    intros m. apply is_live_text.
  - apply comprehension_filter. eapply Forall_impl; [|exact Hall].
    intros m. apply is_upcoming_text.
  - apply filter_partition.
  - apply Forall_forall. intros m Hm. apply filter_In in Hm.
    destruct Hm as [_ Hm]. now destruct (not_begun m).
  - apply Forall_forall. intros m Hm. apply filter_In in Hm. tauto.
Qed.

(** X16. The sidebar's "Upcoming" list is what [get_scheduled_matches]
    computes from the same feed: the two places spell the same test, with
    the three words in a different order. *)
Theorem upcoming_list_is_scheduled_matches getenv net :
  get_scheduled_matches getenv net =
  rbind (call getenv net) upcoming_matches.
Proof.
  unfold get_scheduled_matches, upcoming_matches.
  destruct (call getenv net) as [all|e]; simpl; [|reflexivity].
  induction all as [|m all IH]; simpl; [reflexivity|].
  now rewrite is_scheduled_upcoming, IH.
Qed.

Lemma prefix_length t s :
  String.prefix t s = true -> (String.length t <= String.length s)%nat.
Proof.
  revert s. induction t as [|c t IH]; intros s; simpl; [lia|].
  destruct s as [|d s]; simpl; [discriminate|].
  destruct (Ascii.ascii_dec c d); [|discriminate].
  intros H. apply IH in H. lia.
Qed.

(** X17. [get_todays_matches] returns, in the order given, exactly the
    matches whose start time begins with today's date, provided every start
    time is a text; a start time that is not a text makes it raise
    [AttributeError]. *)
Theorem todays_matches_are_the_prefixed today ms :
  (Forall (fun m => is_text (start_time m) = true) ms ->
   get_todays_matches today ms = Ok (filter (starts_on today) ms)) /\
  (forall m, In m ms -> is_text (start_time m) = false ->
   get_todays_matches today ms = Raise AttributeError).
Proof.
  unfold get_todays_matches. split.
  - intros Hall. apply comprehension_filter.
    eapply Forall_impl; [|exact Hall]. intros m Hm. cbv beta in Hm.
    unfold starts_on. destruct (start_time m); try discriminate. reflexivity.
  - intros m Hin Hm. apply (comprehension_raises _ _ m); auto.
    + destruct (start_time m); try discriminate; reflexivity.
    + intros y e'. destruct (start_time y); simpl; congruence.
Qed.

(** X18. A match whose record carries no "dateTimeGMT" gets the start time
    "N/A" and is therefore never among today's matches, the date having
    ten characters. *)
Theorem match_without_start_time_is_not_today fields mi today :
  match_info_of (JObj fields) = Ok mi ->
  assoc "dateTimeGMT" fields = None ->
  String.length today = 10%nat ->
  get_todays_matches today [mi] = Ok [].
Proof.
  intros Hm Hd Hlen.
  assert (Hs : start_time mi = NA).
  { revert Hm. unfold match_info_of.
    repeat match goal with
           | |- context [rbind ?r _] =>
               destruct r eqn:?; cbn [rbind]; [|discriminate]
           end.
    intros H. injection H as <-. cbn [start_time].
    match goal with
    | H : py_get (JObj fields) "dateTimeGMT" NA = Ok _ |- _ =>
        unfold py_get in H; rewrite Hd in H; now injection H as <-
    end. }
  unfold get_todays_matches. cbn [comprehension]. rewrite Hs.
  unfold NA. cbn [py_startswith rbind].
  destruct (String.prefix today "N/A") eqn:E; [|reflexivity].
  apply prefix_length in E. simpl in E. lia.
Qed.

End ScheduleMore.

(* ===================================================================== *)
(** * Score display and scorecard fetch *)
(* ===================================================================== *)

Section PageMore.
Import LiveData Page.

Lemma score_lines_loop repr innings : forall (lines : list string) l,
  match traverse (score_line repr) innings with
  | Ok ls =>
      for_each innings (fun inn => line <- lift (score_line repr inn) ;;
                                   lines <- get ;;
                                   put (lines ++ [line]))%py lines l
      = Outcome (Ok tt) (lines ++ ls) l
  | Raise e =>
      exists lines',
        for_each innings (fun inn => line <- lift (score_line repr inn) ;;
                                     lines <- get ;;
                                     put (lines ++ [line]))%py lines l
        = Outcome (Raise e) lines' l
  end.
Proof.
  induction innings as [|inn innings IH]; intros lines l; simpl.
  - unfold ret. now rewrite app_nil_r.
  - cbv [bind lift get put].
    destruct (score_line repr inn) as [line|e]; simpl; [|eauto].
    specialize (IH (lines ++ [line]) l).
    destruct (traverse (score_line repr) innings) as [ls|e]; simpl.
    + cbv [bind lift get put] in IH. rewrite IH. now rewrite <- app_assoc.
    + exact IH.
Qed.

(** [format_score] without its local list. *)
Lemma format_score_value repr v s l :
  value (format_score repr v s l) =
  if negb (truthy v) then Ok "No score available"%string
  else rbind (py_iter v) (fun innings =>
       rbind (traverse (score_line repr) innings) (fun ls =>
       Ok (String.concat nl ls))).
Proof.
  unfold format_score. destruct (negb (truthy v)); [reflexivity|].
  cbv [bind lift get put]. destruct (py_iter v) as [innings|e]; [|reflexivity].
  cbn [rbind].
  pose proof (score_lines_loop repr innings [] l) as H.
  cbv [bind lift get put] in H.
  destruct (traverse (score_line repr) innings) as [ls|e].
  - rewrite H. reflexivity.
  - destruct H as [lines' ->]. reflexivity.
Qed.

Lemma py_iter_truthy v innings :
  truthy v = true -> py_iter v = Ok innings -> innings <> [].
Proof.
  destruct v as [|b|z|s|items|fields]; simpl; try discriminate.
  - destruct s; [discriminate|]. intros _ H. injection H as <-. discriminate.
  - destruct items; [discriminate|]. intros _ H. now injection H as <-.
  - destruct fields; [discriminate|]. intros _ H. injection H as <-.
    discriminate.
Qed.

Lemma score_line_starts repr inn line :
  score_line repr inn = Ok line -> exists t, line = String "*" t.
Proof.
  unfold score_line.
  repeat match goal with
         | |- context [rbind ?r _] =>
             destruct r; cbn [rbind]; [|discriminate]
         end.
  intros H. injection H as <-. eexists. reflexivity.
Qed.

(** X19. The answer of [format_score] tells an absent score from a present
    one: it is "No score available" exactly when the score list is empty or
    missing (falsy); otherwise it begins with the bold marker of the first
    innings. *)
Theorem format_score_placeholder_iff_no_score repr v s l out :
  value (format_score repr v s l) = Ok out ->
  (out = "No score available"%string <-> truthy v = false).
Proof.
  rewrite format_score_value. destruct (truthy v) eqn:Ht; cbn [negb].
  - destruct (py_iter v) as [innings|] eqn:Hi; [|discriminate]. cbn [rbind].
    pose proof (py_iter_truthy v innings Ht Hi) as Hne.
    destruct innings as [|inn innings]; [congruence|]. cbn [traverse].
    destruct (score_line repr inn) as [line|] eqn:Hl; [|discriminate].
    cbn [rbind].
    destruct (traverse (score_line repr) innings) as [ls|]; [|discriminate].
    cbn [rbind]. intros H. injection H as <-.
    destruct (score_line_starts repr inn line Hl) as [t ->].
    destruct ls; simpl; split; discriminate.
  - intros H. injection H as <-. split; reflexivity.
Qed.

(** The outcome of [get_scorecard] from the outcome of its [try] block. *)
Lemma get_scorecard_cases getenv net mid page l :
  let inner := scorecard_body net (scorecard_params getenv mid) page l in
  let o := get_scorecard getenv net mid page l in
  match value inner with
  | Ok v => value o = Ok v /\ state o = state inner
  | Raise e =>
      value o = Ok JNull /\
      state o = state inner ++ [ScorecardFetchError e]
  end.
Proof.
  cbv zeta. unfold get_scorecard, try_except.
  destruct (scorecard_body net (scorecard_params getenv mid) page l)
    as [[v|e] s' l']; simpl; auto.
Qed.

(** What the [try] block does to the page. *)
Lemma scorecard_body_page net params page l :
  let inner := scorecard_body net params page l in
  state inner = page \/
  (value inner = Ok JNull /\ exists n, state inner = page ++ [n]).
Proof.
  cbv zeta. unfold scorecard_body. cbv [bind emit lift st_error get put ret].
  destruct (net scorecard_url params) as [r|]; [|now left].
  destruct (raise_for_status r) as [[]|]; [|now left].
  destruct (body r) as [data|]; [|now left].
  destruct (py_get data "status" JNull) as [st|]; [|now left].
  destruct (negb (eq_str st "success")).
  - destruct (py_get data "reason" JNull) as [reason|]; [|now left].
    right. split; [reflexivity|]. eexists. reflexivity.
  - destruct (py_subscript data "data"); now left.
Qed.

(** X20. [get_scorecard] never raises, and every failure is shown: unless
    the request is served (answered without an HTTP error status by an
    object with status "success" and a "data" member), it returns [None]
    and puts exactly one error on the page. *)
Theorem get_scorecard_reports_every_failure getenv net mid page l :
  let o := get_scorecard getenv net mid page l in
  (exists v, value o = Ok v) /\
  ((forall d, ~ scorecard_served getenv net mid d) ->
   value o = Ok JNull /\ exists n, state o = page ++ [n]).
Proof.
  cbv zeta. split.
  - pose proof (get_scorecard_cases getenv net mid page l) as C.
    cbv zeta in C.
    destruct (value (scorecard_body net (scorecard_params getenv mid)
                       page l)); destruct C; eauto.
  - intros Hno. unfold scorecard_served in Hno.
    assert (H : exists n l',
      get_scorecard getenv net mid page l =
      Outcome (Ok JNull) (page ++ [n]) l').
    { unfold get_scorecard, try_except, scorecard_body.
      cbv [bind emit lift st_error get put ret].
      destruct (net scorecard_url (scorecard_params getenv mid)) as [r|e];
        [|eauto].
      destruct (raise_for_status r) as [[]|e] eqn:Hr; [|eauto].
      destruct (body r) as [data|e] eqn:Hb; [|eauto].
      destruct data as [| | | | |fields]; try (simpl; eauto; fail).
      unfold py_get.
      destruct (assoc "status" fields) as [st|] eqn:Hs.
      - destruct (eq_str st "success") eqn:E; cbn [negb].
        + apply eq_str_true in E. subst st. cbn [py_subscript].
          destruct (assoc "data" fields) as [d|] eqn:Hd; [|eauto].
          exfalso. apply (Hno d). exists r, fields. auto.
        + destruct (assoc "reason" fields); eauto.
      - cbn [eq_str negb]. destruct (assoc "reason" fields); eauto. }
    destruct H as [n [l' ->]]. simpl. eauto.
Qed.

(** X21. On an answer with status "success", [get_scorecard] returns the
    "data" member and shows nothing; if the answer has no "data" member it
    returns [None] and shows the [KeyError]. *)
Theorem get_scorecard_returns_the_data getenv net mid page l r fields :
  net scorecard_url (scorecard_params getenv mid) = Ok r ->
  raise_for_status r = Ok tt ->
  body r = Ok (JObj fields) ->
  assoc "status" fields = Some (JStr "success") ->
  let o := get_scorecard getenv net mid page l in
  match assoc "data" fields with
  | Some d => value o = Ok d /\ state o = page
  | None => value o = Ok JNull /\
            state o = page ++ [ScorecardFetchError KeyError]
  end.
Proof.
  intros Hn Hr Hb Hs. cbv zeta.
  assert (Hbody :
    scorecard_body net (scorecard_params getenv mid) page l =
    match assoc "data" fields with
    | Some d => Outcome (Ok d) page (l ++ [HttpGet scorecard_url])
    | None => Outcome (Raise KeyError) page (l ++ [HttpGet scorecard_url])
    end).
  { unfold scorecard_body. cbv [bind emit lift]. rewrite Hn, Hr, Hb.
    unfold py_get. rewrite Hs. cbn [eq_str].
    rewrite String.eqb_refl. cbn [negb py_subscript].
    destruct (assoc "data" fields); reflexivity. }
  pose proof (get_scorecard_cases getenv net mid page l) as C.
  cbv zeta in C. rewrite Hbody in C.
  destruct (assoc "data" fields) as [d|]; exact C.
Qed.

End PageMore.

(* ===================================================================== *)
(** * Further properties of the fantasy-XI selection *)
(* ===================================================================== *)

Section LoopsMore.
Context {S X : Type}.

(** [for_each_invariant] for an invariant that does not mention the log. *)
Lemma for_each_keeps (I : S -> list X -> Prop) (step : X -> Py S unit) :
  (forall x s l u s' l' seen,
     I s seen -> step x s l = Outcome (Ok u) s' l' -> I s' (seen ++ [x])) ->
  forall xs s l u s' l' seen,
    I s seen -> for_each xs step s l = Outcome (Ok u) s' l' ->
    I s' (seen ++ xs).
Proof.
  intros Hstep xs. induction xs as [|x xs IH]; intros s l u s' l' seen Hi.
  - simpl. unfold ret. intros H. injection H as _ <- _.
    now rewrite app_nil_r.
  - simpl. unfold bind.
    destruct (step x s l) as [[u1|e] s1 l1] eqn:Hx; [|discriminate].
    intros H. pose proof (Hstep _ _ _ _ _ _ _ Hi Hx) as Hi1.
    pose proof (IH _ _ _ _ _ _ Hi1 H) as Hi2.
    now rewrite <- app_assoc in Hi2.
Qed.

End LoopsMore.

Section SelectionMore.
Import App.

Lemma batting_step_shape b stats l u stats' l' :
  batting_step b stats l = Outcome (Ok u) stats' l' ->
  step_shape (entry_name "batsman" b) stats stats'.
Proof.
  unfold batting_step.
  unfold bind at 1. unfold lift at 1.
  destruct (py_get b "batsman" (JObj [])) as [who|] eqn:Hw; [|discriminate].
  unfold bind at 1. unfold lift at 1.
  destruct (py_get who "name" JNull) as [nm|] eqn:Hn; [|discriminate].
  assert (Hname : entry_name "batsman" b = nm).
  { unfold entry_name, field. now rewrite Hw, Hn. }
  rewrite Hname.
  destruct (truthy nm) eqn:Ht; cbn [negb].
  - unfold bind at 1. rewrite setdefault_run.
    destruct (hashable nm) eqn:Hh; [|discriminate].
    unfold bind at 1. unfold lift at 1.
    destruct (py_get b "r" (JInt 0)) as [v|]; [|discriminate].
    unfold add_runs. unfold bind at 1. rewrite (getitem_run _ _ _ Hh).
    rewrite ensure_get, (key_eqb_refl nm Hh) by exact Hh.
    unfold bind at 1. unfold lift at 1.
    destruct (int_add (t_runs (tally_of stats nm)) v) as [r|];
      [|discriminate].
    cbv [bind get put]. intros H. injection H as _ <- _.
    right. repeat split; auto. eexists. reflexivity.
  - unfold ret. intros H. injection H as _ <- _. left. auto.
Qed.

Lemma bowling_step_shape bw stats l u stats' l' :
  bowling_step bw stats l = Outcome (Ok u) stats' l' ->
  step_shape (entry_name "bowler" bw) stats stats'.
Proof.
  unfold bowling_step.
  unfold bind at 1. unfold lift at 1.
  destruct (py_get bw "bowler" (JObj [])) as [who|] eqn:Hw; [|discriminate].
  unfold bind at 1. unfold lift at 1.
  destruct (py_get who "name" JNull) as [nm|] eqn:Hn; [|discriminate].
  assert (Hname : entry_name "bowler" bw = nm).
  { unfold entry_name, field. now rewrite Hw, Hn. }
  rewrite Hname.
  destruct (truthy nm) eqn:Ht; cbn [negb].
  - unfold bind at 1. rewrite setdefault_run.
    destruct (hashable nm) eqn:Hh; [|discriminate].
    unfold bind at 1. unfold lift at 1.
    destruct (py_get bw "w" (JInt 0)) as [v|]; [|discriminate].
    unfold add_wickets. unfold bind at 1. rewrite (getitem_run _ _ _ Hh).
    rewrite ensure_get, (key_eqb_refl nm Hh) by exact Hh.
    unfold bind at 1. unfold lift at 1.
    destruct (int_add (t_wickets (tally_of stats nm)) v) as [r|];
      [|discriminate].
    cbv [bind get put]. intros H. injection H as _ <- _.
    right. repeat split; auto. eexists. reflexivity.
  - unfold ret. intros H. injection H as _ <- _. left. auto.
Qed.

Lemma keyed_step stats bs ws nm stats' bs' ws' :
  keyed stats bs ws ->
  step_shape nm stats stats' ->
  (forall x, named bs' ws' x <-> named bs ws x \/ key_eqb nm x = true) ->
  keyed stats' bs' ws'.
Proof.
  intros Hk Hshape Hnamed x. rewrite Hnamed.
  destruct Hshape as [[Ht ->]|[Ht [Hh [t ->]]]].
  - rewrite (Hk x). split.
    + tauto.
    + intros [Hx [Hn|Hn]]; [tauto|].
      apply key_eqb_truthy in Hn. congruence.
  - rewrite dict_get_set, ensure_get by exact Hh.
    destruct (key_eqb nm x) eqn:E.
    + split; [|discriminate]. intros _.
      rewrite <- (key_eqb_truthy nm x E). auto.
    + rewrite (Hk x). split; [tauto|].
      intros [Hx [Hn|Hn]]; [tauto | discriminate].
Qed.

Lemma named_batting bs ws b x :
  named (bs ++ [b]) ws x <->
  named bs ws x \/ key_eqb (entry_name "batsman" b) x = true.
Proof.
  unfold named. split.
  - intros [[e [Hin He]]|H]; [|tauto].
    apply in_app_or in Hin. destruct Hin as [Hin|[<-|[]]]; [|tauto].
    left. left. eauto.
  - intros [[[e [Hin He]]|H]|H].
    + left. exists e. split; [apply in_or_app|]; auto.
    + tauto.
    + left. exists b. split; [apply in_or_app; simpl|]; auto.
Qed.

Lemma named_bowling bs ws w x :
  named bs (ws ++ [w]) x <->
  named bs ws x \/ key_eqb (entry_name "bowler" w) x = true.
Proof.
  unfold named. split.
  - intros [H|[e [Hin He]]]; [tauto|].
    apply in_app_or in Hin. destruct Hin as [Hin|[<-|[]]]; [|tauto].
    left. right. eauto.
  - intros [[H|[e [Hin He]]]|H].
    + tauto.
    + right. exists e. split; [apply in_or_app|]; auto.
    + right. exists w. split; [apply in_or_app; simpl|]; auto.
Qed.

Lemma innings_step_keyed inn stats bs ws l u stats' l' :
  keyed stats bs ws ->
  innings_step inn stats l = Outcome (Ok u) stats' l' ->
  keyed stats' (bs ++ batting_of inn) (ws ++ bowling_of inn).
Proof.
  intros Hk. unfold innings_step, batting_of, bowling_of, items, field.
  unfold bind at 1. unfold lift at 1.
  destruct (py_get inn "batting" (JArr [])) as [bv|]; [|discriminate].
  cbn [rbind]. destruct (py_iter bv) as [batting|]; [|discriminate].
  unfold bind at 1.
  destruct (for_each batting batting_step stats l) as [[u1|] s1 l1] eqn:Hb;
    [|discriminate].
  assert (H1 : keyed s1 (bs ++ batting) ws).
  { apply (for_each_keeps (fun s seen => keyed s seen ws) batting_step)
      with (seen := bs) in Hb; auto.
    intros x s l0 u0 s' l0' seen Hi Hx.
    eapply keyed_step; [exact Hi | eapply batting_step_shape; eauto |].
    intros y. apply named_batting. }
  unfold bind at 1. unfold lift at 1.
  destruct (py_get inn "bowling" (JArr [])) as [wv|]; [|discriminate].
  cbn [rbind]. destruct (py_iter wv) as [bowling|]; [|discriminate].
  intros Hw.
  apply (for_each_keeps (fun s seen => keyed s (bs ++ batting) seen)
           bowling_step) with (seen := ws) in Hw; auto.
  intros x s l0 u0 s' l0' seen Hi Hx.
  eapply keyed_step; [exact Hi | eapply bowling_step_shape; eauto |].
  intros y. apply named_bowling.
Qed.

Lemma keyed_empty : keyed [] [] [].
Proof.
  intros x. simpl. split; [congruence|].
  intros [_ [[e [[] _]]|[e [[] _]]]].
Qed.

Lemma accumulate_keyed sc u stats l' :
  accumulate sc [] [] = Outcome (Ok u) stats l' ->
  keyed stats (flat_map batting_of (innings_of sc))
              (flat_map bowling_of (innings_of sc)).
Proof.
  unfold accumulate, innings_of, items, field.
  unfold bind at 1. unfold lift at 1.
  destruct (py_get sc "scorecard" (JArr [])) as [v|]; [|discriminate].
  cbn [rbind]. destruct (py_iter v) as [innings|]; [|discriminate].
  intros H.
  apply (for_each_keeps
           (fun s seen => keyed s (flat_map batting_of seen)
                                  (flat_map bowling_of seen))
           innings_step) with (seen := []) in H.
  - exact H.
  - intros x s l u0 s' l0 seen Hi Hx. rewrite !flat_map_app. simpl.
    rewrite !app_nil_r. eapply innings_step_keyed; eauto.
  - apply keyed_empty.
Qed.

(** Everything known about the dict behind a returned XI. *)
Lemma select_fantasy_xi_dict sc xi :
  select_fantasy_xi sc = Ok xi ->
  exists stats,
    tallied stats (flat_map batting_of (innings_of sc))
                  (flat_map bowling_of (innings_of sc)) /\
    keyed stats (flat_map batting_of (innings_of sc))
                (flat_map bowling_of (innings_of sc)) /\
    xi = mark (firstn 11 (sort_desc (map player_of stats))).
Proof.
  unfold select_fantasy_xi.
  destruct (accumulate sc [] []) as [[u|e] stats l'] eqn:Ha; simpl;
    [|discriminate].
  intros H. injection H as <-. exists stats. split; [|split].
  - eapply accumulate_tallied; eauto.
  - eapply accumulate_keyed; eauto.
  - reflexivity.
Qed.

Lemma sort_desc_perm l : Permutation (sort_desc l) l.
Proof.
  assert (Hins : forall p l', Permutation (insert_desc p l') (p :: l')).
  { intros p l'. induction l' as [|q l' IH]; simpl; [reflexivity|].
    destruct (score q <=? score p); [reflexivity|].
    rewrite IH. apply perm_swap. }
  induction l as [|p l IH]; simpl; [constructor|].
  rewrite Hins. now constructor.
Qed.

Lemma mark_names xi : map name (mark xi) = map name xi.
Proof. destruct xi as [|c [|v rest]]; reflexivity. Qed.

Lemma mark_scores xi : map score (mark xi) = map score xi.
Proof. destruct xi as [|c [|v rest]]; reflexivity. Qed.

Lemma distinct_NoDup stats :
  distinct stats -> NoDup (map (fun kv => hash_key (fst kv)) stats).
Proof.
  induction stats as [|[k t] rest IH]; simpl; [constructor|].
  intros [Hr [Hn Hd]]. constructor; [|auto].
  intros Hin. apply in_map_iff in Hin. destruct Hin as [[k' t'] [Hk Hin]].
  simpl in Hk. apply key_eqb_true in Hr. destruct Hr as [h [Hh _]].
  pose proof (dict_get_None rest k k' t' Hn Hin) as E.
  assert (key_eqb k' k = true).
  { apply key_eqb_true. exists h. split; congruence. }
  congruence.
Qed.

Lemma xi_keys_NoDup stats :
  distinct stats ->
  NoDup (map (fun p => hash_key (name p))
             (mark (firstn 11 (sort_desc (map player_of stats))))).
Proof.
  intros Hd.
  rewrite <- (map_map name hash_key), mark_names, map_map.
  rewrite <- firstn_map. apply NoDup_firstn.
  eapply Permutation_NoDup.
  - symmetry. apply Permutation_map, sort_desc_perm.
  - rewrite map_map. simpl. now apply distinct_NoDup.
Qed.

(** X22. No player is selected twice: two entries of the XI whose names
    are equal as dict keys are one and the same entry. *)
Theorem selected_names_are_distinct sc xi i j p q :
  select_fantasy_xi sc = Ok xi ->
  nth_error xi i = Some p -> nth_error xi j = Some q ->
  key_eqb (name p) (name q) = true ->
  i = j.
Proof.
  intros H Hi Hj Hk. apply select_fantasy_xi_dict in H.
  destruct H as [stats [[Hd _] [_ ->]]].
  pose proof (xi_keys_NoDup stats Hd) as Hnd.
  apply key_eqb_true in Hk. destruct Hk as [h [Hp Hq]].
  rewrite NoDup_nth_error in Hnd. apply Hnd.
  - rewrite length_map. apply nth_error_Some. congruence.
  - rewrite !nth_error_map, Hi, Hj. simpl. congruence.
Qed.

Lemma unmarked_players stats :
  Forall (fun p => captain p = false /\ vice_captain p = false)
         (firstn 11 (sort_desc (map player_of stats))).
Proof.
  apply Forall_forall. intros p Hp. apply In_firstn in Hp.
  rewrite sort_desc_In in Hp. apply in_map_iff in Hp.
  destruct Hp as [kv [<- _]]. auto.
Qed.

(** X23. The marks are exclusive: in the returned XI the captain flag is
    set on the first entry only and the vice-captain flag on the second
    entry only. *)
Theorem only_the_first_two_are_marked sc xi i p :
  select_fantasy_xi sc = Ok xi ->
  nth_error xi i = Some p ->
  captain p = (i =? 0)%nat /\ vice_captain p = (i =? 1)%nat.
Proof.
  intros H Hi. apply select_fantasy_xi_dict in H.
  destruct H as [stats [_ [_ ->]]].
  pose proof (unmarked_players stats) as Hu.
  destruct (firstn 11 (sort_desc (map player_of stats))) as [|c [|v rest]].
  - destruct i; discriminate.
  - inversion Hu as [|? ? [Hc Hv] _]; subst.
    destruct i as [|i]; simpl in Hi.
    + injection Hi as <-. simpl. auto.
    + destruct i; discriminate.
  - inversion Hu as [|? ? [Hc Hv] Hu']; subst.
    inversion Hu' as [|? ? [Hc' Hv'] Hu'']; subst.
    destruct i as [|[|i]]; simpl in Hi.
    + injection Hi as <-. simpl. auto.
    + injection Hi as <-. simpl. auto.
    + apply nth_error_In in Hi. rewrite Forall_forall in Hu''.
      destruct (Hu'' p Hi). simpl. auto.
Qed.

Lemma dict_get_Some stats x t :
  dict_get stats x = Some t ->
  exists k, In (k, t) stats /\ key_eqb k x = true.
Proof.
  induction stats as [|[k w] rest IH]; simpl; [discriminate|].
  destruct (key_eqb k x) eqn:E.
  - intros H. injection H as <-. exists k. auto.
  - intros H. destruct (IH H) as [k' [Hin Hk]]. exists k'. auto.
Qed.

Lemma sorted_firstn_skipn {A} (R : A -> A -> Prop) n : forall l a b,
  StronglySorted R l ->
  In a (firstn n l) -> In b (skipn n l) -> R a b.
Proof.
  induction n as [|n IH]; intros l a b Hs Ha Hb; [contradiction|].
  destruct l as [|x l]; [contradiction|].
  inversion Hs as [|? ? Hl Hx]; subst. simpl in Ha, Hb.
  destruct Ha as [->|Ha].
  - rewrite Forall_forall in Hx. apply Hx.
    rewrite <- (firstn_skipn n l). apply in_or_app. auto.
  - eapply IH; eauto.
Qed.

Lemma mark_In_name xi p :
  In p (mark xi) -> exists p0, In p0 xi /\ name p0 = name p /\
                               score p0 = score p.
Proof.
  destruct xi as [|c [|v rest]]; simpl.
  - tauto.
  - intros [<-|[]]. exists c. auto.
  - intros [<-|[<-|H]].
    + exists c. auto.
    + exists v. auto.
    + exists p. auto.
Qed.

Lemma In_mark_name xi p0 :
  In p0 xi -> exists p, In p (mark xi) /\ name p = name p0.
Proof.
  destruct xi as [|c [|v rest]]; simpl.
  - tauto.
  - intros [<-|[]]. eexists. split; [left; reflexivity | reflexivity].
  - intros [<-|[<-|H]].
    + eexists. split; [left; reflexivity | reflexivity].
    + eexists. split; [right; left; reflexivity | reflexivity].
    + exists p0. auto.
Qed.

(** X24. The XI are the top scorers: a player named in the scorecard is
    either selected, or the XI is full and each of its eleven entries
    scores at least as much as that player. *)
Theorem left_out_players_are_outscored sc xi nm :
  select_fantasy_xi sc = Ok xi ->
  truthy nm = true -> named_in sc nm ->
  (exists p, In p xi /\ key_eqb (name p) nm = true) \/
  (List.length xi = 11%nat /\
   Forall (fun p => points sc nm <= score p) xi).
Proof.
  intros H Ht Hn. apply select_fantasy_xi_dict in H.
  destruct H as [stats [[Hd [_ Hs]] [Hk ->]]].
  assert (Hg : dict_get stats nm <> None) by (apply Hk; auto).
  destruct (dict_get stats nm) as [t|] eqn:Hget; [clear Hg|congruence].
  destruct (dict_get_Some stats nm t Hget) as [k [Hin Hkey]].
  destruct (Hs nm Ht) as [Hr Hw]. unfold tally_of in Hr, Hw.
  rewrite Hget in Hr, Hw.
  set (all := sort_desc (map player_of stats)).
  assert (Hall : In (player_of (k, t)) all).
  { unfold all. rewrite sort_desc_In. apply in_map_iff. eauto. }
  rewrite <- (firstn_skipn 11 all) in Hall. apply in_app_or in Hall.
  destruct Hall as [Hfirst|Hrest].
  - left. destruct (In_mark_name _ _ Hfirst) as [p [Hp Hname]].
    exists p. split; [exact Hp|]. now rewrite Hname.
  - right. split.
    + rewrite mark_length. apply firstn_length_le.
      destruct (Nat.le_gt_cases 11 (List.length all)) as [|Hlt]; [auto|].
      rewrite skipn_all2 in Hrest by lia. contradiction.
    + apply Forall_forall. intros p Hp.
      destruct (mark_In_name _ _ Hp) as [p0 [Hp0 [_ Hsc]]].
      pose proof (sorted_firstn_skipn by_score_desc 11 all p0
                    (player_of (k, t)) (sort_desc_sorted _) Hp0 Hrest) as Hle.
      unfold by_score_desc in Hle. rewrite <- Hsc.
      unfold points, total_runs, total_wickets. rewrite <- Hr, <- Hw.
      unfold player_of in Hle. cbn [score fst snd] in Hle. lia.
Qed.

(** X25. Every selected player is named in the scorecard: the name is
    present (not empty, null or zero) and is the name of some batting or
    bowling entry. *)
Theorem selected_players_are_named sc xi :
  select_fantasy_xi sc = Ok xi ->
  Forall (fun p => truthy (name p) = true /\ named_in sc (name p)) xi.
Proof.
  intros H. apply select_fantasy_xi_dict in H.
  destruct H as [stats [[Hd _] [Hk ->]]].
  apply Forall_forall. intros p Hp.
  destruct (mark_In_name _ _ Hp) as [p0 [Hp0 [Hname _]]].
  apply In_firstn in Hp0. rewrite sort_desc_In in Hp0.
  apply in_map_iff in Hp0. destruct Hp0 as [[k t] [<- Hin]].
  rewrite <- Hname. cbn [player_of name fst].
  apply Hk. rewrite (distinct_found stats k t Hd Hin). discriminate.
Qed.

(** X26. The answer is the empty list, for which the page says that no XI
    could be built, exactly when the scorecard names nobody. *)
Theorem empty_xi_iff_nobody_named sc xi :
  select_fantasy_xi sc = Ok xi ->
  (xi = [] <-> forall nm, truthy nm = true -> ~ named_in sc nm).
Proof.
  intros H. apply select_fantasy_xi_dict in H.
  destruct H as [stats [[Hd _] [Hk ->]]]. split.
  - intros He nm Ht Hn.
    assert (Hg : dict_get stats nm <> None) by (apply Hk; auto).
    destruct (dict_get stats nm) as [t|] eqn:Hget; [|congruence].
    destruct (dict_get_Some stats nm t Hget) as [k [Hin _]].
    assert (Hall : In (player_of (k, t)) (sort_desc (map player_of stats))).
    { rewrite sort_desc_In. apply in_map_iff. eauto. }
    destruct (sort_desc (map player_of stats)) as [|c rest];
      [contradiction|].
    simpl in He. destruct rest; discriminate.
  - intros Hnone. destruct stats as [|[k t] rest]; [reflexivity|].
    exfalso. apply (Hnone k).
    + apply (proj1 (Hk k)). simpl in Hd. destruct Hd as [Hr _].
      simpl. rewrite Hr. discriminate.
    + apply (proj1 (Hk k)). simpl in Hd. destruct Hd as [Hr _].
      simpl. rewrite Hr. discriminate.
Qed.

End SelectionMore.

(* ===================================================================== *)
(** * The further properties at concrete inputs *)
(* ===================================================================== *)

Section ConcreteMore.
Import Example Cases Retriever.
Local Open Scope string_scope.
#[local] Existing Instance toy.

Lemma construction_log_witness :
  small_log =
    (load_warning files players_path ++ load_warning files conditions_path
     ++ faq_warning files faqs_path
     ++ [ModelEncode (documents small);
         IndexAdd (List.length (documents small))])%list
  /\ player_stats small = loaded files players_path
  /\ match_conditions small = loaded files conditions_path
  /\ faqs small = faq_source files faqs_path.
Proof.
  exact (@construction_log toy files players_path conditions_path faqs_path
           small small_log eq_refl).
Defined.


Lemma no_faq_path_reads_no_file_witness :
  @construct toy files players_path conditions_path (Some "")
    = construct files players_path conditions_path None /\
  @construct toy files players_path conditions_path None
    = construct files_other_faqs players_path conditions_path None /\
  (forall r evs,
     @construct toy files players_path conditions_path None = (Ok r, evs) ->
     faqs r = JArr []).
Proof.
  exact (@no_faq_path_reads_no_file toy files files_other_faqs players_path
           conditions_path eq_refl eq_refl).
Defined.

Lemma player_stats_object_is_fatal_witness :
  fst (@construct toy wrapped_players players_path conditions_path faqs_path)
    = Raise AttributeError.
Proof.
  exact (@player_stats_object_is_fatal toy wrapped_players players_path
           conditions_path faqs_path _ _ eq_refl).
Defined.

Lemma match_conditions_shape_is_fatal_witness :
  fst (@construct toy listed_conditions players_path conditions_path
         faqs_path) = Raise AttributeError.
Proof.
  exact (@match_conditions_shape_is_fatal toy listed_conditions players_path
           conditions_path faqs_path [text_A; text_B]
           eq_refl eq_refl eq_refl).
Defined.

Lemma selection_follows_labels_witness :
  exists ds,
    select_documents corpus3 [2; 0] = Ok ds /\
    Forall2 (fun i d => nth_error corpus3 (Z.to_nat i) = Some d) [2; 0] ds.
Proof.
  apply selection_follows_labels.
  repeat constructor; unfold in_range; simpl; lia.
Defined.

Lemma label_below_minus_len_faults_witness :
  select_documents corpus3 [0; -4] = Raise IndexError.
Proof.
  apply (label_below_minus_len_faults corpus3 [0; -4] (-4)).
  - simpl. auto.
  - simpl. lia.
Defined.

Lemma retrieve_within_corpus_witness :
  exists labels out,
    @retrieve toy "captain" 2 small [] =
    Outcome (Ok out) small [ModelEncode ["captain"]; IndexSearch 2] /\
    List.length out = 2%nat /\
    NoDup labels /\
    Forall2 (fun i t => in_range 3 i /\
                        nth_error corpus3 (Z.to_nat i) = Some t)
            labels out.
Proof.
  apply (@retrieve_within_corpus toy (JArr [player_A; player_B]) (JArr [])
           (JArr [faq_captain; faq_blank_answer]) text_A [text_B; text_faq]
           "captain" 2 []).
  - discriminate.
  - simpl. lia.
Defined.

Lemma feed_lists_every_match_witness :
  LiveData.call no_env (answer three_matches) = Ok feed.
Proof.
  eapply (feed_lists_every_match no_env (answer three_matches) _
            _ three_matches feed); try reflexivity.
  repeat constructor.
Defined.

Lemma one_bad_match_empties_the_feed_witness :
  LiveData.call no_env (answer [match_live; match_no_teams; match_upcoming])
    = Ok [].
Proof.
  eapply (one_bad_match_empties_the_feed no_env
            (answer [match_live; match_no_teams; match_upcoming]) _ _
            [match_live; match_no_teams; match_upcoming] match_no_teams
            IndexError); try reflexivity.
  simpl. auto.
Defined.

Lemma team_names_of_a_match_witness :
  (exists mi, LiveData.match_info_of (JObj [("id", JStr "m5")]) = Ok mi /\
              LiveData.team1 mi = LiveData.NA /\
              LiveData.team2 mi = LiveData.NA) /\
  (exists mi, LiveData.match_info_of match_upcoming = Ok mi /\
              LiveData.team1 mi = JStr "Kenya" /\
              LiveData.team2 mi = LiveData.NA) /\
  LiveData.match_info_of match_no_teams = Raise IndexError.
Proof.
  split; [|split].
  - exact (proj1 (team_names_of_a_match [("id", JStr "m5")]) eq_refl).
  - exact (proj1 (proj2 (team_names_of_a_match
             [("teamInfo", JArr [JObj [("name", JStr "Kenya")]]);
              ("status", JStr "UPCOMING");
              ("dateTimeGMT", JStr "2024-05-02T09:30:00");
              ("id", JStr "m3")])) _ eq_refl).
  - exact (proj2 (proj2 (team_names_of_a_match
             [("teamInfo", JArr []); ("status", JStr "Scheduled")]))
             eq_refl).
Defined.

Lemma scheduled_matches_are_the_not_begun_witness :
  Schedule.get_scheduled_matches no_env (answer three_matches)
    = Ok [info_scheduled; info_upcoming].
Proof.
  apply (scheduled_matches_are_the_not_begun no_env (answer three_matches)
           feed).
  - reflexivity.
  - repeat constructor.
Defined.

Lemma scheduled_matches_raise_on_non_text_status_witness :
  Schedule.get_scheduled_matches no_env
    (answer [match_live; match_null_status]) = Raise AttributeError.
Proof.
  apply (proj2 (scheduled_matches_raise_on_non_text_status no_env
                  (answer [match_live; match_null_status]) AttributeError)).
  split; [reflexivity|].
  exists [info_live; info_null_status], info_null_status.
  repeat split. simpl. auto.
Defined.

Lemma sidebar_lists_split_the_feed_witness :
  exists live upcoming,
    Page.live_matches feed = Ok live /\
    Page.upcoming_matches feed = Ok upcoming /\
    Permutation (live ++ upcoming)%list feed /\
    Forall (fun m => not_begun m = false) live /\
    Forall (fun m => not_begun m = true) upcoming.
Proof.
  apply sidebar_lists_split_the_feed. repeat constructor.
Defined.

Lemma todays_matches_are_the_prefixed_witness :
  Page.get_todays_matches "2024-05-01" feed = Ok [info_live] /\
  Page.get_todays_matches "2024-05-01" [info_live; info_null_status]
    = Ok [info_live] /\
  Page.get_todays_matches "2024-05-01"
    [{| LiveData.team1 := JStr "N/A"; LiveData.team2 := JStr "N/A";
        LiveData.venue := JStr "N/A"; LiveData.status := JStr "Scheduled";
        LiveData.start_time := JNull; LiveData.match_id := JStr "m6";
        LiveData.score := JArr [] |}] = Raise AttributeError.
Proof.
  split; [|split].
  - apply (proj1 (todays_matches_are_the_prefixed "2024-05-01" feed)).
    repeat constructor.
  - apply (proj1 (todays_matches_are_the_prefixed "2024-05-01"
                    [info_live; info_null_status])).
    repeat constructor.
  - eapply (proj2 (todays_matches_are_the_prefixed "2024-05-01" _)).
    + left. reflexivity.
    + reflexivity.
Defined.

Lemma match_without_start_time_is_not_today_witness :
  Page.get_todays_matches "2024-05-01" [info_scheduled] = Ok [].
Proof.
  apply (match_without_start_time_is_not_today
           [("teamInfo", JArr [JObj [("name", JStr "England")];
                               JObj [("name", JStr "Pakistan")]]);
            ("status", JStr "Scheduled"); ("id", JStr "m2")]
           info_scheduled "2024-05-01"); reflexivity.
Defined.

Lemma format_score_placeholder_iff_no_score_witness :
  ("**India Inning 1**: 250/7 in 50 overs" = "No score available"
   <-> truthy (JArr [innings_line]) = false) /\
  ("No score available" = "No score available"
   <-> truthy (JArr []) = false).
Proof.
  split.
  - exact (format_score_placeholder_iff_no_score no_repr
             (JArr [innings_line]) [] [] _ eq_refl).
  - exact (format_score_placeholder_iff_no_score no_repr (JArr []) [] [] _
             eq_refl).
Defined.

Lemma get_scorecard_returns_the_data_witness :
  (value (Page.get_scorecard no_env (scorecard_answer with_data) "m1" [] [])
     = Ok scorecard /\
   state (Page.get_scorecard no_env (scorecard_answer with_data) "m1" [] [])
     = []) /\
  (value (Page.get_scorecard no_env (scorecard_answer without_data) "m1"
            [] []) = Ok JNull /\
   state (Page.get_scorecard no_env (scorecard_answer without_data) "m1"
            [] []) = [Page.ScorecardFetchError KeyError]).
Proof.
  split.
  - exact (get_scorecard_returns_the_data no_env (scorecard_answer with_data)
             "m1" [] [] _ with_data eq_refl eq_refl eq_refl eq_refl).
  - exact (get_scorecard_returns_the_data no_env
             (scorecard_answer without_data) "m1" [] [] _ without_data
             eq_refl eq_refl eq_refl eq_refl).
Defined.

Lemma selected_names_are_distinct_witness :
  nth_error fantasy_xi 1 = nth_error fantasy_xi 1 /\ 1%nat = 1%nat.
Proof.
  split; [reflexivity|].
  exact (selected_names_are_distinct scorecard fantasy_xi 1 1 _ _
           eq_refl eq_refl eq_refl eq_refl).
Defined.

Lemma only_the_first_two_are_marked_witness :
  (exists p, nth_error fantasy_xi 1 = Some p /\
             App.captain p = false /\ App.vice_captain p = true) /\
  (exists p, nth_error fantasy_xi 2 = Some p /\
             App.captain p = false /\ App.vice_captain p = false).
Proof.
  split; eexists; (split; [reflexivity|]).
  - exact (only_the_first_two_are_marked scorecard fantasy_xi 1 _
             eq_refl eq_refl).
  - exact (only_the_first_two_are_marked scorecard fantasy_xi 2 _
             eq_refl eq_refl).
Defined.

Lemma left_out_players_are_outscored_witness :
  (exists p, In p fantasy_xi /\ App.key_eqb (App.name p) (JStr "C") = true)
  \/
  (List.length fantasy_xi = 11%nat /\
   Forall (fun p => (points scorecard (JStr "C") <= App.score p)%Z)
          fantasy_xi).
Proof.
  apply (left_out_players_are_outscored scorecard fantasy_xi (JStr "C")).
  - reflexivity.
  - reflexivity.
  - left. exists (bat "C" 7). split; [|reflexivity].
    simpl. auto 10.
Defined.

Lemma selected_players_are_named_witness :
  Forall (fun p => truthy (App.name p) = true /\
                   named_in scorecard (App.name p)) fantasy_xi.
Proof.
  exact (selected_players_are_named scorecard fantasy_xi eq_refl).
Defined.

Lemma empty_xi_iff_nobody_named_witness :
  (@nil App.player = [] <->
   forall nm, truthy nm = true -> ~ named_in (JObj []) nm).
Proof.
  exact (empty_xi_iff_nobody_named (JObj []) [] eq_refl).
Defined.

Lemma get_scorecard_reports_every_failure_witness :
  (value (Page.get_scorecard no_env unreachable "m1" [] []) = Ok JNull /\
   exists n, state (Page.get_scorecard no_env unreachable "m1" [] [])
             = [n]) /\
  (value (Page.get_scorecard no_env refused "m1" [] []) = Ok JNull /\
   exists n, state (Page.get_scorecard no_env refused "m1" [] []) = [n]).
Proof.
  split.
  - apply (proj2 (get_scorecard_reports_every_failure no_env unreachable
                    "m1" [] [])).
    intros d [r [fields [H _]]]. discriminate H.
  - apply (proj2 (get_scorecard_reports_every_failure no_env refused
                    "m1" [] [])).
    intros d [r [fields [Hn [_ [Hb [Hs _]]]]]].
    injection Hn as <-. injection Hb as <-. discriminate Hs.
Defined.

End ConcreteMore.
